(** * Spack environment deployment (snakemake/deployment/spack.py)

    A shallow embedding of [Env] and [Spack] from
    [snakemake/deployment/spack.py], with the properties of hashing, path
    resolution, provisioning and roll-back stated over it.

    Conventions of the embedding.
    - A Python [str] is a [string]; [str.encode()] gives its bytes.
    - [bytes] are [list byte].
    - The file system is a finite map from path strings to nodes.
    - A method that touches the object or the disk is a computation in
      the monad [M]: it threads the object and the disk, may raise, and
      records the side effects it performs. *)

From Stdlib Require Import ZArith Lia List Bool.
From Stdlib Require Import Strings.Byte Strings.Ascii Strings.String.
From stdpp Require Import base option list gmap strings.

Import ListNotations.
Local Open Scope string_scope.
Local Open Scope list_scope.

(** ** hashlib.md5

    The digest of the standard library, RFC 1321, on 32-bit words kept
    in [Z] with the wrap-around written out. *)
Module hashlib.

Local Open Scope Z_scope.

Definition wrap32 (x : Z) : Z := x mod 4294967296.

Definition add32 (a b : Z) : Z := wrap32 (a + b).

Definition not32 (a : Z) : Z := Z.lxor a 4294967295.

Definition rotl32 (x c : Z) : Z :=
  Z.lor (wrap32 (Z.shiftl x c)) (Z.shiftr x (32 - c)).

Definition shifts : list Z :=
  [7; 12; 17; 22; 7; 12; 17; 22; 7; 12; 17; 22; 7; 12; 17; 22;
   5; 9; 14; 20; 5; 9; 14; 20; 5; 9; 14; 20; 5; 9; 14; 20;
   4; 11; 16; 23; 4; 11; 16; 23; 4; 11; 16; 23; 4; 11; 16; 23;
   6; 10; 15; 21; 6; 10; 15; 21; 6; 10; 15; 21; 6; 10; 15; 21].

Definition sines : list Z :=
  [0xd76aa478; 0xe8c7b756; 0x242070db; 0xc1bdceee; 0xf57c0faf; 0x4787c62a;
   0xa8304613; 0xfd469501; 0x698098d8; 0x8b44f7af; 0xffff5bb1; 0x895cd7be;
   0x6b901122; 0xfd987193; 0xa679438e; 0x49b40821; 0xf61e2562; 0xc040b340;
   0x265e5a51; 0xe9b6c7aa; 0xd62f105d; 0x02441453; 0xd8a1e681; 0xe7d3fbc8;
   0x21e1cde6; 0xc33707d6; 0xf4d50d87; 0x455a14ed; 0xa9e3e905; 0xfcefa3f8;
   0x676f02d9; 0x8d2a4c8a; 0xfffa3942; 0x8771f681; 0x6d9d6122; 0xfde5380c;
   0xa4beea44; 0x4bdecfa9; 0xf6bb4b60; 0xbebfbc70; 0x289b7ec6; 0xeaa127fa;
   0xd4ef3085; 0x04881d05; 0xd9d4d039; 0xe6db99e5; 0x1fa27cf8; 0xc4ac5665;
   0xf4292244; 0x432aff97; 0xab9423a7; 0xfc93a039; 0x655b59c3; 0x8f0ccc92;
   0xffeff47d; 0x85845dd1; 0x6fa87e4f; 0xfe2ce6e0; 0xa3014314; 0x4e0811a1;
   0xf7537e82; 0xbd3af235; 0x2ad7d2bb; 0xeb86d391].

Record regs := Regs { rA : Z; rB : Z; rC : Z; rD : Z }.

Definition init_regs : regs :=
  Regs 0x67452301 0xefcdab89 0x98badcfe 0x10325476.

Definition byte_to_Z (b : byte) : Z := Z.of_N (Byte.to_N b).

Definition Z_to_byte (z : Z) : byte :=
  match Byte.of_N (Z.to_N (z mod 256)) with
  | Some b => b
  | None => x00
  end.

(** Little-endian bytes of a word, and back. *)
Definition le_bytes (n : nat) (w : Z) : list Z :=
  map (fun i => Z.shiftr w (8 * Z.of_nat i) mod 256) (seq 0 n).

Fixpoint le_word (bs : list Z) : Z :=
  match bs with
  | [] => 0
  | b :: bs' => b + 256 * le_word bs'
  end.

Fixpoint words (n : nat) (bs : list Z) : list Z :=
  match n with
  | O => []
  | S n' => le_word (firstn 4 bs) :: words n' (skipn 4 bs)
  end.

Definition round (m : list Z) (r : regs) (i : nat) : regs :=
  let '(Regs a b c d) := r in
  let zi := Z.of_nat i in
  let '(f, g) :=
    if zi <? 16 then (Z.lor (Z.land b c) (Z.land (not32 b) d), zi)
    else if zi <? 32 then
      (Z.lor (Z.land d b) (Z.land (not32 d) c), (5 * zi + 1) mod 16)
    else if zi <? 48 then (Z.lxor (Z.lxor b c) d, (3 * zi + 5) mod 16)
    else (Z.lxor c (Z.lor b (not32 d)), (7 * zi) mod 16) in
  let f' := add32 (add32 (add32 f a) (nth i sines 0)) (nth (Z.to_nat g) m 0) in
  Regs d (add32 b (rotl32 f' (nth i shifts 0))) b c.

Definition compress (r : regs) (block : list Z) : regs :=
  let m := words 16 block in
  let r' := fold_left (round m) (seq 0 64) r in
  Regs (add32 (rA r) (rA r')) (add32 (rB r) (rB r'))
       (add32 (rC r) (rC r')) (add32 (rD r) (rD r')).

(** Feed the padded message byte by byte, compressing every 64 bytes. *)
Fixpoint absorb (l cur : list Z) (k : nat) (r : regs) : regs :=
  match l with
  | [] => r
  | b :: l' =>
      if Nat.eqb k 63 then absorb l' [] 0%nat (compress r (cur ++ [b]))
      else absorb l' (cur ++ [b]) (S k) r
  end.

Definition pad (msg : list Z) : list Z :=
  let n := Z.of_nat (length msg) in
  let zeros := Z.to_nat ((55 - n) mod 64) in
  msg ++ [128] ++ repeat 0 zeros ++ le_bytes 8 ((8 * n) mod 18446744073709551616).

Definition digest_of (data : list byte) : list byte :=
  let r := absorb (pad (map byte_to_Z data)) [] 0%nat init_regs in
  map Z_to_byte (le_bytes 4 (rA r) ++ le_bytes 4 (rB r) ++
                 le_bytes 4 (rC r) ++ le_bytes 4 (rD r)).

Definition hex_digit (n : Z) : ascii :=
  nth (Z.to_nat n)
    ["0"; "1"; "2"; "3"; "4"; "5"; "6"; "7"; "8"; "9";
     "a"; "b"; "c"; "d"; "e"; "f"]%char "0"%char.

Fixpoint hex_of (bs : list byte) : string :=
  match bs with
  | [] => EmptyString
  | b :: bs' =>
      String (hex_digit (byte_to_Z b / 16))
        (String (hex_digit (byte_to_Z b mod 16)) (hex_of bs'))
  end.

(** The hash object: [md5()] starts empty, [update] appends, and
    [hexdigest] is the lowercase hex of the digest of all that was fed. *)
Definition md5_obj := list byte.
Definition md5 : md5_obj := [].
Definition update (h : md5_obj) (data : list byte) : md5_obj := h ++ data.
Definition digest (h : md5_obj) : list byte := digest_of h.
Definition hexdigest (h : md5_obj) : string := hex_of (digest h).

End hashlib.

(** [str.encode()]: a [string] stands for its UTF-8 text, byte by byte. *)
Definition encode (s : string) : list byte := list_byte_of_string s.


(** ** posixpath *)
Module posixpath.

Definition sep : ascii := "/"%char.

Definition is_sep (c : ascii) : bool := Ascii.eqb c sep.

Definition startswith_sep (s : string) : bool :=
  match s with
  | String c _ => is_sep c
  | EmptyString => false
  end.

Fixpoint endswith_sep (s : string) : bool :=
  match s with
  | EmptyString => false
  | String c EmptyString => is_sep c
  | String _ s' => endswith_sep s'
  end.

(** [os.path.join(a, b)] for one component [b]. *)
Definition join (a b : string) : string :=
  if startswith_sep b then b
  else if String.eqb a "" || endswith_sep a then a +:+ b
  else a +:+ "/" +:+ b.

Fixpoint lstrip_sep (l : list ascii) : list ascii :=
  match l with
  | c :: l' => if is_sep c then lstrip_sep l' else l
  | [] => []
  end.

Fixpoint drop_tail (l : list ascii) : list ascii :=
  match l with
  | c :: l' => if is_sep c then l else drop_tail l'
  | [] => []
  end.

(** [os.path.dirname(p)]: everything up to the last separator, with
    the trailing separators removed unless nothing else is left.  The
    characters are handled in reverse order. *)
Definition dirname (p : string) : string :=
  let head := drop_tail (rev (list_ascii_of_string p)) in
  let head' := if forallb is_sep head then head else lstrip_sep head in
  string_of_list_ascii (rev head').

End posixpath.

(** ** The file system

    A path names a directory or a file with its bytes.  The operations
    are those of [os], [os.path], [shutil], [pathlib] and [tempfile] that
    the module calls; each returns [None] where Python raises [OSError]. *)
Inductive node :=
| File (data : list byte)
| Dir.

Abbreviation FS := (gmap string node).

Definition os_path_exists (fs : FS) (p : string) : bool :=
  match fs !! p with
  | Some _ => true
  | None => false
  end.

Definition os_path_isdir (fs : FS) (p : string) : bool :=
  match fs !! p with
  | Some Dir => true
  | _ => false
  end.

Definition os_path_isfile (fs : FS) (p : string) : bool :=
  match fs !! p with
  | Some (File _) => true
  | _ => false
  end.

(** The directory an entry would be created in must exist; the empty
    name is the working directory and [/] the root. *)
Definition parent_exists (fs : FS) (p : string) : bool :=
  let d := posixpath.dirname p in
  String.eqb d "" || String.eqb d "/" || os_path_isdir fs d.

(** [os.mkdir(p)] tolerating an existing directory. *)
Definition mkdir_exist_ok (fs : FS) (p : string) : option FS :=
  match fs !! p with
  | Some Dir => Some fs
  | Some (File _) => None
  | None => if parent_exists fs p then Some (<[p := Dir]> fs) else None
  end.

(** [os.makedirs(p, exist_ok=True)]: the missing ancestors first.  The
    root is always there, as for [parent_exists]. *)
Fixpoint makedirs_fuel (fuel : nat) (fs : FS) (p : string) : option FS :=
  let head := posixpath.dirname p in
  if String.eqb head "" || String.eqb head "/" || os_path_exists fs head
  then mkdir_exist_ok fs p
  else
    match fuel with
    | O => None
    | S fuel' =>
        match makedirs_fuel fuel' fs head with
        | Some fs' => mkdir_exist_ok fs' p
        | None => None
        end
    end.

Definition os_makedirs (fs : FS) (p : string) : option FS :=
  makedirs_fuel (String.length p) fs p.

(** [Path(p).touch()]. *)
Definition path_touch (fs : FS) (p : string) : option FS :=
  if parent_exists fs p then
    match fs !! p with
    | Some _ => Some fs
    | None => Some (<[p := File []]> fs)
    end
  else None.

(** [shutil.copyfile(src, dst)]. *)
Definition shutil_copyfile (fs : FS) (src dst : string) : option FS :=
  match fs !! src with
  | Some (File data) =>
      if String.eqb src dst then None
      else if os_path_isdir fs dst then None
      else if parent_exists fs dst then Some (<[dst := File data]> fs)
      else None
  | _ => None
  end.

(** [k] is [p] or lies below it. *)
Definition under (p k : string) : bool :=
  String.eqb k p || String.prefix (p +:+ "/") k.

(** An entry is held when it cannot be deleted, or when something at or
    below it cannot: a directory that is not empty cannot be removed.
    [undeletable] says which entries cannot be deleted (permissions, a
    file in use), which the map of the disk does not carry. *)
Definition held (undeletable : string -> bool) (fs : FS) (k : string)
    : bool :=
  existsb (fun kv => undeletable kv.1 && under k kv.1) (map_to_list fs).

(** [shutil.rmtree(p, ignore_errors=True)]: best effort, never raises.
    Unless [p] is a directory nothing happens: a regular file stays, a
    missing path is no error.  Of a directory everything goes that is
    not held. *)
Definition shutil_rmtree (undeletable : string -> bool) (fs : FS)
    (p : string) : FS :=
  match fs !! p with
  | Some Dir =>
      filter (fun kv => negb (under p kv.1) || held undeletable fs kv.1 = true)
        fs
  | _ => fs
  end.

(** [os.remove(p)]. *)
Definition os_remove (fs : FS) (p : string) : option FS :=
  match fs !! p with
  | Some (File _) => Some (delete p fs)
  | _ => None
  end.

(** ** Source files, workflow and the environment object *)

(** The kinds of source a specification can be declared from
    ([snakemake.sourcecache]): a plain local file, a blob of a local git
    repository, or anything fetched through a URI. *)
Inductive SourceFile :=
| LocalSourceFile (path : string)
| LocalGitFile (repo_path path ref : string)
| GenericSourceFile (path_or_uri : string).

Definition isinstance_LocalSourceFile (f : SourceFile) : bool :=
  match f with
  | LocalSourceFile _ => true
  | _ => false
  end.

Definition isinstance_LocalGitFile (f : SourceFile) : bool :=
  match f with
  | LocalGitFile _ _ _ => true
  | _ => false
  end.

Definition get_path_or_uri (f : SourceFile) : string :=
  match f with
  | LocalSourceFile p => p
  | LocalGitFile repo p ref => "git+file://" +:+ repo +:+ "/" +:+ p +:+ "@" +:+ ref
  | GenericSourceFile u => u
  end.

Global Instance SourceFile_eq_dec : EqDecision SourceFile.
Proof. solve_decision. Defined.

(** Modelled from the spec: [SourceFile.__eq__] of
    [snakemake/sourcecache.py], which is not among the sources.  Two
    source files are equal when they are the same declared source. *)
Definition SourceFile_eq (a b : SourceFile) : bool := bool_decide (a = b).

Inductive SpackCleanupMode :=
| tarballs
| cache.

Definition SpackCleanupMode_str (m : SpackCleanupMode) : string :=
  match m with
  | tarballs => "tarballs"
  | cache => "cache"
  end.

Record Persistence := {
  spack_env_path : string;
  spack_env_archive_path : string
}.

Record Workflow := { persistence : Persistence }.

Record Env := {
  file : SourceFile;
  workflow : Workflow;
  _env_dir : string;
  _hash : option string;
  _content_hash : option string;
  _content : option (list byte);
  _path : option string;
  _archive_file : option string;
  _cleanup : option SpackCleanupMode
}.

(** Python truth of an optional string: [None] and the empty string are
    false. *)
Definition truthy (o : option string) : bool :=
  match o with
  | Some s => negb (String.eqb s "")
  | None => false
  end.

(** [Env.__init__]; [env_file] is what [infer_source_file] returned. *)
Definition Env_init (env_file : SourceFile) (wf : Workflow)
    (env_dir : option string) (cleanup : option SpackCleanupMode) : Env :=
  {| file := env_file;
     workflow := wf;
     _env_dir := if truthy env_dir then default "" env_dir
                 else spack_env_path (persistence wf);
     _hash := None;
     _content_hash := None;
     _content := None;
     _path := None;
     _archive_file := None;
     _cleanup := cleanup |}.

Definition _env_archive_dir (self : Env) : string :=
  spack_env_archive_path (persistence (workflow self)).

Definition set_hash (self : Env) (h : string) : Env :=
  {| file := file self; workflow := workflow self; _env_dir := _env_dir self;
     _hash := Some h; _content_hash := _content_hash self;
     _content := _content self; _path := _path self;
     _archive_file := _archive_file self; _cleanup := _cleanup self |}.

Definition set_content (self : Env) (c : list byte) : Env :=
  {| file := file self; workflow := workflow self; _env_dir := _env_dir self;
     _hash := _hash self; _content_hash := _content_hash self;
     _content := Some c; _path := _path self;
     _archive_file := _archive_file self; _cleanup := _cleanup self |}.

(** ** Exceptions, effects and the monad *)

(** [CalledProcessError] carries the command and its captured output.
    [BrokenEnvironment] and [SourceUnavailable] are the spec's names for
    what the collaborators raise. *)
Inductive exn :=
| WorkflowError (msg : string)
| CreateSpackEnvironmentException (msg : string)
| CalledProcessError (cmd output : string)
| OSError (what : string)
| BrokenEnvironment (env_path : string)
| SourceUnavailable.

(** What a run did to the world outside the object, in order. *)
Inductive event :=
| EvTempfile (name : string)
| EvWrite (name : string) (data : list byte)
| EvMakedirs (p : string)
| EvTouch (p : string)
| EvCopyfile (src dst : string)
| EvShell (cmd : string) (ok : bool) (out : string)
| EvRmtree (p : string)
| EvRemove (p : string).

Inductive result (A : Type) :=
| Return (a : A)
| Raise (e : exn).
Arguments Return {A} a.
Arguments Raise {A} e.

Record State := { self : Env; disk : FS }.

Record outcome (A : Type) := Outcome {
  res : result A;
  st : State;
  evs : list event
}.
Arguments Outcome {A} res st evs.
Arguments res {A} o.
Arguments st {A} o.
Arguments evs {A} o.

Definition M (A : Type) : Type := State -> outcome A.

Definition ret {A} (a : A) : M A := fun s => Outcome (Return a) s [].

Definition raise {A} (e : exn) : M A := fun s => Outcome (Raise e) s [].

Definition bind {A B} (m : M A) (k : A -> M B) : M B :=
  fun s =>
    match m s with
    | Outcome (Return a) s1 e1 =>
        match k a s1 with
        | Outcome r s2 e2 => Outcome r s2 (e1 ++ e2)
        end
    | Outcome (Raise e) s1 e1 => Outcome (Raise e) s1 e1
    end.

Global Instance M_ret : MRet M := @ret.
Global Instance M_bind : MBind M := fun A B k m => bind m k.

(** [try: body / except subprocess.CalledProcessError as e: handler]. *)
Definition try_except {A} (body : M A) (handler : string -> string -> M A)
    : M A :=
  fun s =>
    match body s with
    | Outcome (Raise (CalledProcessError cmd out)) s1 e1 =>
        match handler cmd out s1 with
        | Outcome r s2 e2 => Outcome r s2 (e1 ++ e2)
        end
    | o => o
    end.

(** [for x in l: out = body(x)], giving the last [out]. *)
Fixpoint for_last {A B} (l : list A) (body : A -> M B) (out : B) : M B :=
  match l with
  | [] => ret out
  | x :: l' => out' ← body x; for_last l' body out'
  end.

Definition get_self : M Env := fun s => Outcome (Return (self s)) s [].

Definition put_self (e : Env) : M unit :=
  fun s => Outcome (Return tt) {| self := e; disk := disk s |} [].

Definition get_disk : M FS := fun s => Outcome (Return (disk s)) s [].

(** A file-system call: the new disk and the event on success,
    [OSError] and an untouched disk otherwise. *)
Definition fs_call (what : string) (f : FS -> option FS) (ev : event)
    : M unit :=
  fun s =>
    match f (disk s) with
    | Some fs' => Outcome (Return tt) {| self := self s; disk := fs' |} [ev]
    | None => Outcome (Raise (OSError what)) s []
    end.

(** ** The collaborators

    What the module consumes from the operating system and from the rest
    of snakemake.  [os_path_realpath] resolves links and the working
    directory, which the map of the disk does not carry;
    [sourcecache_read] is the source reader, which gives the bytes of a
    source or fails; [tempfile_stem] is the name [tempfile] picks before
    the suffix; [shell_check_output] runs a command line and gives its
    exit status, its combined output and the disk it leaves behind;
    [undeletable] says which entries of the disk cannot be deleted. *)
Record process := {
  exit_ok : bool;
  output : string;
  disk_after : FS
}.

Class Platform := {
  os_path_realpath : string -> string;
  sourcecache_read : SourceFile -> option (list byte);
  tempfile_stem : FS -> string;
  shell_check_output : string -> FS -> process;
  undeletable : string -> bool;
  ON_WINDOWS : bool;
  shell_get_executable : option string
}.

Definition nl : string := String (ascii_of_nat 10) EmptyString.

(** [str.format] of an optional string. *)
Definition format_opt (o : option string) : string :=
  match o with
  | Some s => s
  | None => "None"
  end.

(** [" ".join(l)]. *)
Fixpoint join_space (l : list string) : string :=
  match l with
  | [] => ""
  | [x] => x
  | x :: l' => x +:+ " " +:+ join_space l'
  end.

Section Spack.

Context `{P : Platform}.

Definition exists_ (p : string) : M bool :=
  fun s => Outcome (Return (os_path_exists (disk s) p)) s [].

(** [shell.check_output(cmd, stderr=subprocess.STDOUT, ...)]. *)
Definition check_output (cmd : string) : M string :=
  fun s =>
    let pr := shell_check_output cmd (disk s) in
    let s' := {| self := self s; disk := disk_after pr |} in
    if exit_ok pr then
      Outcome (Return (output pr)) s' [EvShell cmd true (output pr)]
    else
      Outcome (Raise (CalledProcessError cmd (output pr))) s'
        [EvShell cmd false (output pr)].

(** [tempfile.NamedTemporaryFile(delete=False, suffix=...)]: the file
    is there, empty, once the call returns. *)
Definition NamedTemporaryFile (suffix : string) : M string :=
  fun s =>
    let name := tempfile_stem (disk s) +:+ suffix in
    Outcome (Return name)
      {| self := self s; disk := <[name := File []]> (disk s) |}
      [EvTempfile name].

Definition tmp_write (name : string) (data : list byte) : M unit :=
  fun s =>
    Outcome (Return tt)
      {| self := self s; disk := <[name := File data]> (disk s) |}
      [EvWrite name data].

Definition makedirs (p : string) : M unit :=
  fs_call "makedirs" (fun fs => os_makedirs fs p) (EvMakedirs p).

Definition touch (p : string) : M unit :=
  fs_call "touch" (fun fs => path_touch fs p) (EvTouch p).

Definition copyfile (src dst : string) : M unit :=
  fs_call "copyfile" (fun fs => shutil_copyfile fs src dst)
    (EvCopyfile src dst).

Definition rmtree (p : string) : M unit :=
  fs_call "rmtree" (fun fs => Some (shutil_rmtree undeletable fs p))
    (EvRmtree p).

Definition remove (p : string) : M unit :=
  fs_call "remove" (fun fs => os_remove fs p) (EvRemove p).

(** Modelled from the spec: [EnvBase.content] of
    [snakemake/deployment/base.py], which is not among the sources.
    The raw bytes of the specification, fetched once from the source
    reader and cached; [SourceUnavailable] if they cannot be read. *)
Definition content : M (list byte) :=
  self ← get_self;
  match _content self with
  | Some c => mret c
  | None =>
      match sourcecache_read (file self) with
      | Some c => put_self (set_content self c);; mret c
      | None => raise SourceUnavailable
      end
  end.

(** [Env.hash]. *)
Definition hash : M string :=
  self ← get_self;
  match _hash self with
  | Some h => mret h
  | None =>
      let md5hash := hashlib.md5 in
      let env_dir := os_path_realpath (_env_dir self) in
      let md5hash := hashlib.update md5hash (encode env_dir) in
      c ← content;
      let md5hash := hashlib.update md5hash c in
      self ← get_self;
      put_self (set_hash self (hashlib.hexdigest md5hash));;
      mret (hashlib.hexdigest md5hash)
  end.

(** [Env.path]. *)
Definition path : M string :=
  self ← get_self;
  let env_dir := _env_dir self in
  let get_path := fun h => posixpath.join env_dir h in
  h0 ← hash;
  h1 ← hash;
  let hash_candidates := (String.substring 0 8 h0, h1) in
  e0 ← exists_ (get_path hash_candidates.1);
  e1 ← exists_ (get_path hash_candidates.2);
  if e1 || negb e0 then mret (get_path hash_candidates.2)
  else mret (get_path hash_candidates.1).

(** [Env.create_archive]. *)
Definition create_archive : M unit :=
  raise (WorkflowError "spack does not support environment archive.").

(** Modelled from the spec: [EnvBase.check_broken_environment] of
    [snakemake/deployment/base.py], which is not among the sources.  A
    directory is broken iff the start sentinel is there without the
    done sentinel; a broken directory fails fast. *)
Definition is_broken (fs : FS) (env_path : string) : bool :=
  os_path_exists fs (posixpath.join env_path "env_setup_start")
  && negb (os_path_exists fs (posixpath.join env_path "env_setup_done")).

Definition check_broken_environment (env_path : string) (dryrun : bool)
    : M unit :=
  fs ← get_disk;
  if is_broken fs env_path then raise (BrokenEnvironment env_path)
  else mret tt.

Definition create_cmd (env_path target_env_file : string) : string :=
  join_space ["spack"; "env"; "create";
              "--dir '" +:+ env_path +:+ "'"; target_env_file].

Definition install_cmd : string := "spack install".

Definition activate_cmd (env_path : string) : string :=
  "eval `spack env activate --sh " +:+ env_path +:+ "`; " +:+ install_cmd.

(** The body of the [try] in [Env.create]. *)
Definition provision (env_file env_path : string) : M unit :=
  makedirs env_path;;
  touch (posixpath.join env_path "env_setup_start");;
  let target_env_file := posixpath.join env_path "spack.yaml" in
  copyfile env_file target_env_file;;
  let create := create_cmd env_path target_env_file in
  let activate := activate_cmd env_path in
  out ← for_last [create; activate] check_output "";
  touch (posixpath.join env_path "env_setup_done").

(** The [except subprocess.CalledProcessError] of [Env.create]. *)
Definition rollback (env_file env_path : string) (cmd out : string)
    : M unit :=
  rmtree env_path;;
  raise (CreateSpackEnvironmentException
           ("Could not create spack environment from " +:+ env_file
              +:+ ":" +:+ nl +:+ out)).

(** The end of [Env.create]: drop the temporary file, give the path. *)
Definition finish (tmp_file : option string) (env_path : string)
    : M string :=
  (if truthy tmp_file then remove (default "" tmp_file) else mret tt);;
  mret env_path.

(** The first step of [Env.create]: a source that is not a plain local
    file is written to a named temporary file, which then stands for
    the specification.  Gives [env_file] and [tmp_file]. *)
Definition materialize : M (string * option string) :=
  self ← get_self;
  let env_file := file self in
  if negb (isinstance_LocalSourceFile env_file)
     || isinstance_LocalGitFile env_file
  then
    tmp ← NamedTemporaryFile ".yaml";
    c ← content;
    tmp_write tmp c;;
    mret (tmp, Some tmp)
  else mret (get_path_or_uri env_file, None).

(** The rest of [Env.create], from [env_path = self.path] on. *)
Definition create_at (dryrun : bool) (env_file : string)
    (tmp_file : option string) : M string :=
  env_path ← path;
  check_broken_environment env_path dryrun;;
  ex ← exists_ env_path;
  if negb ex then
    if dryrun then mret env_path
    else
      try_except (provision env_file env_path)
                 (rollback env_file env_path);;
      finish tmp_file env_path
  else finish tmp_file env_path.

(** [Env.create].  The calls to the logger are left out: they write
    to the log only. *)
Definition create (dryrun : bool) : M string :=
  files ← materialize;
  create_at dryrun files.1 files.2.

(** [Spack._check], which is all [Spack.__init__] does. *)
Definition Spack__check : M unit :=
  let locate_cmd :=
    if negb ON_WINDOWS || truthy shell_get_executable then "type spack"
    else "where spack" in
  try_except
    (check_output locate_cmd;; mret tt)
    (fun _ _ =>
       raise (CreateSpackEnvironmentException
                ("The 'spack' command is not available in the shell "
                   +:+ format_opt shell_get_executable
                   +:+ " that will be used by Snakemake. You have to ensure that it is in your PATH."))).

Definition Spack_init : M unit := Spack__check.

(** [Spack.shellcmd]. *)
Definition shellcmd (env_path cmd : string) : string :=
  let activate := "eval `spack env activate --sh " +:+ env_path +:+ "`" in
  activate +:+ "; " +:+ cmd.

End Spack.

(** [Env.__eq__]: the other side may be any object. *)
Inductive pyobj :=
| PyEnv (e : Env)
| PyStr (s : string)
| PyNone.

Definition Env_eq (self : Env) (other : pyobj) : bool :=
  match other with
  | PyEnv o => SourceFile_eq (file self) (file o)
  | _ => false
  end.

(** ** Vocabulary of the statements *)

Definition is_lower_hex (c : ascii) : bool :=
  existsb (Ascii.eqb c)
    ["0"; "1"; "2"; "3"; "4"; "5"; "6"; "7"; "8"; "9";
     "a"; "b"; "c"; "d"; "e"; "f"]%char.

Fixpoint lower_hex_string (s : string) : bool :=
  match s with
  | EmptyString => true
  | String c s' => is_lower_hex c && lower_hex_string s'
  end.

(** Reading a lowercase hex string back into bytes. *)
Definition hex_value (c : ascii) : Z :=
  let n := Z.of_nat (nat_of_ascii c) in
  (if Z.leb 97 n then n - 87 else n - 48)%Z.

Fixpoint unhex (s : string) : list byte :=
  match s with
  | String hi (String lo s') =>
      hashlib.Z_to_byte (16 * hex_value hi + hex_value lo)%Z :: unhex s'
  | _ => []
  end.

Fixpoint last_char (s : string) : option ascii :=
  match s with
  | EmptyString => None
  | String c EmptyString => Some c
  | String _ s' => last_char s'
  end.

(** The command lines a run handed to the shell, in order. *)
Fixpoint shell_cmds (l : list event) : list string :=
  match l with
  | [] => []
  | EvShell cmd _ _ :: l' => cmd :: shell_cmds l'
  | _ :: l' => shell_cmds l'
  end.

(** The test [create] makes on the source, and the name the temporary
    file gets on a given disk. *)
Definition nonlocal (f : SourceFile) : bool :=
  negb (isinstance_LocalSourceFile f) || isinstance_LocalGitFile f.

Definition tmp_name `{P : Platform} (s : State) : string :=
  tempfile_stem (disk s) +:+ ".yaml".

(** The bytes [Env.hash] feeds to the digest: the canonical target root
    followed by the content. *)
Definition hash_input `{P : Platform} (e : Env) (c : list byte) : list byte :=
  encode (os_path_realpath (_env_dir e)) ++ c.

(** The caches of an object are in order when a cached hash is the
    digest of the cached content: what [Env.__init__] sets up and every
    method keeps. *)
Definition caches_ok `{P : Platform} (e : Env) : Prop :=
  forall h, _hash e = Some h ->
    exists c, _content e = Some c
              /\ h = hashlib.hexdigest (hash_input e c).

(** [content] and [hash] read and fill the object only; these are their
    results and the object they leave, as functions of the object. *)
Definition content_of `{P : Platform} (e : Env)
    : result (list byte) * Env :=
  match _content e with
  | Some c => (Return c, e)
  | None =>
      match sourcecache_read (file e) with
      | Some c => (Return c, set_content e c)
      | None => (Raise SourceUnavailable, e)
      end
  end.

Definition hash_of `{P : Platform} (e : Env) : result string * Env :=
  match _hash e with
  | Some h => (Return h, e)
  | None =>
      match content_of e with
      | (Return c, e') =>
          (Return (hashlib.hexdigest (hash_input e c)),
           set_hash e' (hashlib.hexdigest (hash_input e c)))
      | (Raise x, e') => (Raise x, e')
      end
  end.

(** The choice [path] makes between the full-hash and the 8-character
    directory of [dir], on the disk [fs]. *)
Definition resolve (dir h : string) (fs : FS) : string :=
  if os_path_exists fs (posixpath.join dir h)
     || negb (os_path_exists fs (posixpath.join dir (String.substring 0 8 h)))
  then posixpath.join dir h
  else posixpath.join dir (String.substring 0 8 h).

(** Two disks that differ at most at [t]. *)
Definition agree_off (t : string) (d d' : FS) : Prop :=
  forall k, k <> t -> d !! k = d' !! k.

(** ** A concrete platform

    A host without links ([realpath] is the identity), a source reader
    that serves a few fixed documents, a fixed temporary name, a disk
    on which everything can be deleted, and a shell given as a
    parameter.  It is used to run the model on concrete
    inputs. *)
Module Demo.

Definition spec_yaml : list byte :=
  list_byte_of_string ("packages:" +:+ nl +:+ "  - zlib" +:+ nl).

Definition read (f : SourceFile) : option (list byte) :=
  match f with
  | LocalSourceFile "/work/env.yaml" => Some spec_yaml
  | LocalSourceFile "/work/b.yaml" => Some (list_byte_of_string "b")
  | LocalSourceFile "/work/empty.yaml" => Some []
  | LocalSourceFile _ => None
  | _ => Some spec_yaml
  end.

Definition platform (tool : string -> FS -> process) : Platform :=
  {| os_path_realpath := fun p => p;
     sourcecache_read := read;
     tempfile_stem := fun _ => "/tmp/tmpq0w3e9rt";
     shell_check_output := tool;
     undeletable := fun _ => false;
     ON_WINDOWS := false;
     shell_get_executable := Some "bash" |}.

(** A shell on which every command succeeds and leaves the disk as it
    is. *)
Definition tool_ok (cmd : string) (fs : FS) : process :=
  {| exit_ok := true; output := "ok"; disk_after := fs |}.


(** A shell without spack. *)
Definition tool_missing (cmd : string) (fs : FS) : process :=
  {| exit_ok := false; output := "spack: command not found";
     disk_after := fs |}.

Definition wf : Workflow :=
  {| persistence := {| spack_env_path := "/cache/envs";
                       spack_env_archive_path := "/cache/archive" |} |}.

(** The disk: the cache directory, the temporary directory and a local
    specification. *)
Definition disk0 : FS :=
  <["/cache" := Dir]> (<["/cache/envs" := Dir]> (<["/tmp" := Dir]>
    (<["/work" := Dir]> (<["/work/env.yaml" := File spec_yaml]>
      (<["/work/b.yaml" := File (list_byte_of_string "b")]>
        (<["/work/empty.yaml" := File []]> ∅)))))).

Definition local_env : Env :=
  Env_init (LocalSourceFile "/work/env.yaml") wf None None.

Definition remote_env : Env :=
  Env_init (GenericSourceFile "https://example.org/env.yaml") wf None None.

Definition start (e : Env) (fs : FS) : State := {| self := e; disk := fs |}.

Definition host_ok : Platform := platform tool_ok.


Definition host_without_spack : Platform := platform tool_missing.


Definition target : string := "/cache/envs/4dd73e37401c51fcce15a4bda47a05dc".

Definition tmp : string := "/tmp/tmpq0w3e9rt.yaml".

(** A disk on which the environment of [local_env] is already there. *)
Definition disk_ready : FS :=
  <[posixpath.join target "env_setup_done" := File []]>
    (<[posixpath.join target "env_setup_start" := File []]>
       (<[target := Dir]> disk0)).

(** Two objects with different roots and different content, for which
    the root followed by the content is the same bytes. *)
Definition env_a : Env :=
  Env_init (LocalSourceFile "/work/b.yaml") wf (Some "/a") None.

Definition env_ab : Env :=
  Env_init (LocalSourceFile "/work/empty.yaml") wf (Some "/ab") None.

End Demo.

(** * Properties *)

(** ** hashlib *)

Example md5_empty :
  hashlib.hexdigest hashlib.md5 = "d41d8cd98f00b204e9800998ecf8427e".
Proof. vm_compute. reflexivity. Qed.

Example md5_abc :
  hashlib.hexdigest (hashlib.update hashlib.md5 (encode "abc"))
  = "900150983cd24fb0d6963f7d28e17f72".
Proof. vm_compute. reflexivity. Qed.

Example md5_two_blocks :
  hashlib.hexdigest (hashlib.update hashlib.md5 (repeat "a"%byte 70))
  = "0f5c6c4e740bfcc08c3c26ccb2673d46".
Proof. vm_compute. reflexivity. Qed.

Lemma hex_digit_lower (n : Z) : is_lower_hex (hashlib.hex_digit n) = true.
Proof.
  unfold hashlib.hex_digit.
  destruct (Z.to_nat n) as [|[|[|[|[|[|[|[|[|[|[|[|[|[|[|[|m]]]]]]]]]]]]]]]];
    try reflexivity.
  destruct m; reflexivity.
Qed.

Lemma hex_of_lower (bs : list byte) :
  lower_hex_string (hashlib.hex_of bs) = true.
Proof.
  induction bs as [|b bs IH]; simpl; [reflexivity|].
  rewrite !hex_digit_lower, IH. reflexivity.
Qed.

Lemma hex_of_length (bs : list byte) :
  String.length (hashlib.hex_of bs) = 2 * length bs.
Proof. induction bs as [|b bs IH]; simpl; [reflexivity|]. rewrite IH. lia. Qed.

Lemma unhex_hex_of (bs : list byte) : unhex (hashlib.hex_of bs) = bs.
Proof.
  induction bs as [|b bs IH]; simpl; [reflexivity|].
  rewrite IH. f_equal. destruct b; reflexivity.
Qed.

Lemma hex_of_inj (a b : list byte) :
  hashlib.hex_of a = hashlib.hex_of b -> a = b.
Proof.
  intros H. rewrite <- (unhex_hex_of a), <- (unhex_hex_of b), H. reflexivity.
Qed.

Lemma digest_of_length (data : list byte) :
  length (hashlib.digest_of data) = 16.
Proof. unfold hashlib.digest_of. rewrite length_map. reflexivity. Qed.

Lemma hexdigest_length (h : hashlib.md5_obj) :
  String.length (hashlib.hexdigest h) = 32.
Proof.
  unfold hashlib.hexdigest, hashlib.digest.
  rewrite hex_of_length, digest_of_length. reflexivity.
Qed.

Lemma hexdigest_lower (h : hashlib.md5_obj) :
  lower_hex_string (hashlib.hexdigest h) = true.
Proof. apply hex_of_lower. Qed.

Lemma hexdigest_eq_iff (h1 h2 : hashlib.md5_obj) :
  hashlib.hexdigest h1 = hashlib.hexdigest h2
  <-> hashlib.digest h1 = hashlib.digest h2.
Proof.
  split; [apply hex_of_inj|]. unfold hashlib.hexdigest. congruence.
Qed.

(** ** Strings and paths *)

Lemma last_char_app (a b : string) :
  b <> "" -> last_char (a +:+ b) = last_char b.
Proof.
  intros Hb. induction a as [|c a IH]; [reflexivity|].
  change (String c a +:+ b) with (String c (a +:+ b)).
  destruct (a +:+ b) as [|c' r] eqn:E.
  - destruct a; [change ("" +:+ b) with b in E; congruence | discriminate].
  - change (last_char (String c (String c' r)))
      with (last_char (String c' r)).
    exact IH.
Qed.

Lemma last_char_some_nonempty (s : string) (c : ascii) :
  last_char s = Some c -> s <> "".
Proof. destruct s; [discriminate | congruence]. Qed.

Lemma startswith_sep_first (s : string) :
  posixpath.startswith_sep s = true ->
  exists s', s = String "/" s'.
Proof.
  destruct s as [|c s]; [discriminate|]. cbn.
  unfold posixpath.is_sep, posixpath.sep. intros H%Ascii.eqb_eq. subst. eauto.
Qed.

Lemma endswith_sep_last (s : string) :
  posixpath.endswith_sep s = true <-> last_char s = Some "/"%char.
Proof.
  induction s as [|c s IH]; cbn; [split; discriminate|].
  destruct s as [|c' s'].
  - unfold posixpath.is_sep, posixpath.sep. rewrite Ascii.eqb_eq.
    split; congruence.
  - exact IH.
Qed.

(** A joined path ends the way its last component does. *)
Lemma last_char_join (a b : string) :
  b <> "" -> last_char (posixpath.join a b) = last_char b.
Proof.
  intros Hb. unfold posixpath.join.
  destruct (posixpath.startswith_sep b); [reflexivity|].
  destruct (String.eqb a "" || posixpath.endswith_sep a).
  - apply last_char_app, Hb.
  - rewrite last_char_app; [apply last_char_app, Hb|].
    destruct b; [congruence | discriminate].
Qed.

(** The shape of a join when the directory is a proper name and the
    component is relative. *)
Lemma join_plain (a b : string) (c : ascii) :
  last_char a = Some c -> c <> "/"%char ->
  posixpath.startswith_sep b = false ->
  posixpath.join a b = a +:+ "/" +:+ b.
Proof.
  intros Ha Hc Hb. unfold posixpath.join. rewrite Hb.
  assert (String.eqb a "" = false) as ->.
  { apply String.eqb_neq. eapply last_char_some_nonempty, Ha. }
  assert (posixpath.endswith_sep a = false) as ->.
  { destruct (posixpath.endswith_sep a) eqn:E; [|reflexivity].
    apply endswith_sep_last in E. congruence. }
  reflexivity.
Qed.

Lemma list_ascii_app (a b : string) :
  list_ascii_of_string (a +:+ b)
  = list_ascii_of_string a ++ list_ascii_of_string b.
Proof.
  induction a as [|c a IH]; [reflexivity|].
  change (String c a +:+ b) with (String c (a +:+ b)).
  cbn [list_ascii_of_string app]. rewrite IH. reflexivity.
Qed.

Lemma last_char_rev (s : string) (c : ascii) :
  last_char s = Some c ->
  exists l, rev (list_ascii_of_string s) = c :: l.
Proof.
  induction s as [|c' s IH]; [discriminate|].
  destruct s as [|c'' s'].
  - cbn. intros [= ->]. eauto.
  - intros H. destruct (IH H) as [l Hl].
    change (list_ascii_of_string (String c' (String c'' s')))
      with (c' :: list_ascii_of_string (String c'' s')).
    cbn [rev]. rewrite Hl. cbn. eauto.
Qed.

Lemma drop_tail_app (l1 l2 : list ascii) :
  forallb (fun c => negb (posixpath.is_sep c)) l1 = true ->
  posixpath.drop_tail (l1 ++ "/"%char :: l2) = "/"%char :: l2.
Proof.
  induction l1 as [|c l1 IH]; cbn; [reflexivity|].
  intros [Hc H]%andb_true_iff. apply negb_true_iff in Hc. rewrite Hc.
  apply IH, H.
Qed.

(** The directory of [a/b] is [a], for a proper name [a] and a
    component [b] without separator. *)
Lemma dirname_join (a b : string) (c : ascii) :
  last_char a = Some c -> c <> "/"%char ->
  forallb (fun x => negb (posixpath.is_sep x)) (list_ascii_of_string b) = true ->
  posixpath.dirname (a +:+ "/" +:+ b) = a.
Proof.
  intros Ha Hc Hb. unfold posixpath.dirname.
  rewrite !list_ascii_app. cbn [list_ascii_of_string app].
  rewrite rev_app_distr. cbn [rev]. rewrite <- app_assoc. cbn [app].
  rewrite drop_tail_app.
  2:{ rewrite forallb_forall in *. intros x Hx. apply Hb.
      apply in_rev. exact Hx. }
  destruct (last_char_rev a c Ha) as [l Hl]. rewrite Hl.
  assert (Hs : posixpath.is_sep c = false).
  { unfold posixpath.is_sep, posixpath.sep. apply Ascii.eqb_neq. exact Hc. }
  cbn. rewrite Hs. cbn.
  change (rev l ++ [c]) with (rev (c :: l)).
  rewrite <- Hl, rev_involutive.
  apply string_of_list_ascii_of_string.
Qed.

(** Lowercase hex strings end in a lowercase hex digit, and so do their
    prefixes. *)
Lemma lower_hex_last (s : string) :
  lower_hex_string s = true -> s <> "" ->
  exists c, last_char s = Some c /\ is_lower_hex c = true.
Proof.
  induction s as [|c s IH]; [congruence|].
  cbn [lower_hex_string]. intros [Hc Hs]%andb_true_iff _.
  destruct s as [|c' s'].
  - exists c. split; [reflexivity | exact Hc].
  - destruct IH as (d & Hd & Hx); [exact Hs | discriminate |].
    exists d. split; [exact Hd | exact Hx].
Qed.

Lemma lower_hex_prefix (n : nat) (s : string) :
  lower_hex_string s = true ->
  lower_hex_string (String.substring 0 n s) = true.
Proof.
  revert s. induction n as [|n IH]; intros s Hs.
  - destruct s; reflexivity.
  - destruct s as [|c s]; [reflexivity|].
    cbn in *. apply andb_true_iff in Hs as [Hc Hs].
    rewrite Hc, (IH s Hs). reflexivity.
Qed.

Lemma prefix_nonempty (n : nat) (s : string) :
  s <> "" -> String.substring 0 (S n) s <> "".
Proof. destruct s; [congruence | discriminate]. Qed.

Lemma is_lower_hex_chars (c : ascii) :
  is_lower_hex c = true ->
  c <> "/"%char /\ c <> "l"%char /\ c <> "t"%char.
Proof.
  intros H. repeat split; intros ->; discriminate.
Qed.

Lemma update_twice (a b : list byte) :
  hashlib.update (hashlib.update hashlib.md5 a) b = a ++ b.
Proof. reflexivity. Qed.

(** The digest and the path functions are kept folded when a run of the
    model is simplified. *)
Arguments hashlib.hexdigest : simpl never.
Arguments hashlib.update : simpl never.
Arguments posixpath.join : simpl never.
Arguments posixpath.dirname : simpl never.
Arguments String.substring : simpl never.

(** ** The object's caches: [content] and [hash] *)

Ltac unfold_M :=
  unfold mbind, mret, M_bind, M_ret, bind, ret, raise, get_self, put_self,
    get_disk in *.

Section Caches.

Context `{P : Platform}.

(** What [content] does, case by case. *)
Lemma content_run (s : State) :
  content s =
    match _content (self s) with
    | Some c => Outcome (Return c) s []
    | None =>
        match sourcecache_read (file (self s)) with
        | Some c =>
            Outcome (Return c)
              {| self := set_content (self s) c; disk := disk s |} []
        | None => Outcome (Raise SourceUnavailable) s []
        end
    end.
Proof.
  unfold content. unfold_M. cbn.
  destruct (_content (self s)); [reflexivity|].
  destruct (sourcecache_read (file (self s))); reflexivity.
Qed.

Lemma content_frame (s : State) :
  disk (st (content s)) = disk s /\ evs (content s) = []
  /\ file (self (st (content s))) = file (self s)
  /\ _env_dir (self (st (content s))) = _env_dir (self s)
  /\ _hash (self (st (content s))) = _hash (self s).
Proof.
  rewrite content_run.
  destruct (_content (self s)); [easy|].
  destruct (sourcecache_read (file (self s))); easy.
Qed.

(** Once read, the content stays: a second call gives the same bytes
    from the cache. *)
Lemma content_cached (s : State) (c : list byte) :
  res (content s) = Return c -> _content (self (st (content s))) = Some c.
Proof.
  rewrite content_run.
  destruct (_content (self s)) eqn:E; cbn.
  - intros [= ->]. exact E.
  - destruct (sourcecache_read (file (self s))); cbn; [|discriminate].
    intros [= ->]. reflexivity.
Qed.

Lemma hash_cached (s : State) (h : string) :
  _hash (self s) = Some h -> hash s = Outcome (Return h) s [].
Proof. intros E. unfold hash. unfold_M. cbn. rewrite E. reflexivity. Qed.

(** A first call of [hash]: the digest of the canonical root followed
    by the content, stored in the object. *)
Lemma hash_fresh (s : State) (c : list byte) :
  _hash (self s) = None -> res (content s) = Return c ->
  hash s =
    Outcome (Return (hashlib.hexdigest (hash_input (self s) c)))
      {| self := set_hash (self (st (content s)))
                   (hashlib.hexdigest (hash_input (self s) c));
         disk := disk s |} [].
Proof.
  intros E Hc. unfold hash. unfold_M. cbn. rewrite E.
  destruct (content_frame s) as (Hd & He & _).
  destruct (content s) as [r s' ev]; cbn in *. subst r ev.
  cbn. rewrite Hd, update_twice. reflexivity.
Qed.

Lemma hash_fails (s : State) (e : exn) :
  _hash (self s) = None -> res (content s) = Raise e ->
  res (hash s) = Raise e.
Proof.
  intros E Hc. unfold hash. unfold_M. cbn. rewrite E.
  destruct (content s) as [r s' ev]; cbn in *. subst r. reflexivity.
Qed.

(** Whatever [hash] returns is then cached, and nothing else of the
    world changes. *)
Lemma hash_returns (s : State) (h : string) :
  res (hash s) = Return h ->
  _hash (self (st (hash s))) = Some h
  /\ disk (st (hash s)) = disk s /\ evs (hash s) = []
  /\ file (self (st (hash s))) = file (self s)
  /\ _env_dir (self (st (hash s))) = _env_dir (self s)
  /\ (forall c, _content (self s) = Some c ->
                _content (self (st (hash s))) = Some c)
  /\ (_hash (self s) = None -> _content (self (st (hash s))) <> None).
Proof.
  destruct (_hash (self s)) as [h'|] eqn:E.
  - rewrite (hash_cached s h' E). cbn [res st evs]. intros [= ->].
    split; [exact E|]. split; [reflexivity|]. split; [reflexivity|].
    split; [reflexivity|]. split; [reflexivity|].
    split; [tauto|discriminate].
  - destruct (res (content s)) as [c|e] eqn:Hc.
    + rewrite (hash_fresh s c E Hc). cbn [res st evs self disk].
      intros [= <-].
      destruct (content_frame s) as (_ & _ & Hf & Hdir & _).
      pose proof (content_cached s c Hc) as Hcc.
      split; [reflexivity|]. split; [reflexivity|]. split; [reflexivity|].
      split; [exact Hf|]. split; [exact Hdir|].
      unfold set_hash; cbn [_content]. rewrite Hcc.
      split; [|discriminate].
      intros c' Hc'. rewrite content_run, Hc' in Hc.
      cbn [res] in Hc. congruence.
    + intros H. rewrite (hash_fails s e E Hc) in H. discriminate.
Qed.

End Caches.

(** ** Hashing and path resolution *)

Section Identity.

Context `{P : Platform}.

(** C1, as amended.  For two fresh objects whose content can be read,
    [hash] returns the lowercase hex MD5 digest, 32 characters long, of
    the canonical target root followed by the content bytes; equal
    content and equal canonical root give equal hashes; and two hashes
    are equal exactly when the MD5 digests of the two concatenations
    are, so they differ exactly when those digests differ. *)
Theorem hash_is_md5_of_root_and_content (s1 s2 : State)
    (c1 c2 : list byte) :
  _hash (self s1) = None -> _hash (self s2) = None ->
  res (content s1) = Return c1 -> res (content s2) = Return c2 ->
  res (hash s1) = Return (hashlib.hexdigest (hash_input (self s1) c1))
  /\ res (hash s2) = Return (hashlib.hexdigest (hash_input (self s2) c2))
  /\ String.length (hashlib.hexdigest (hash_input (self s1) c1)) = 32
  /\ lower_hex_string (hashlib.hexdigest (hash_input (self s1) c1)) = true
  /\ (c1 = c2 ->
      os_path_realpath (_env_dir (self s1))
      = os_path_realpath (_env_dir (self s2)) ->
      res (hash s1) = res (hash s2))
  /\ (res (hash s1) = res (hash s2) <->
      hashlib.digest (hash_input (self s1) c1)
      = hashlib.digest (hash_input (self s2) c2)).
Proof.
  intros E1 E2 H1 H2.
  rewrite (hash_fresh s1 c1 E1 H1), (hash_fresh s2 c2 E2 H2).
  cbn [res].
  split; [reflexivity|]. split; [reflexivity|].
  split; [apply hexdigest_length|]. split; [apply hexdigest_lower|].
  split.
  - intros -> Hr. unfold hash_input. rewrite Hr. reflexivity.
  - rewrite <- hexdigest_eq_iff. split; congruence.
Qed.

(** What [path] does once the hash is known: the choice between the
    two candidates is made on the disk of the call. *)
Lemma path_run (s : State) (h : string) :
  res (hash s) = Return h ->
  path s =
    Outcome
      (Return
         (if os_path_exists (disk s) (posixpath.join (_env_dir (self s)) h)
             || negb (os_path_exists (disk s)
                        (posixpath.join (_env_dir (self s))
                           (String.substring 0 8 h)))
          then posixpath.join (_env_dir (self s)) h
          else posixpath.join (_env_dir (self s)) (String.substring 0 8 h)))
      (st (hash s)) [].
Proof.
  intros Hh. destruct (hash_returns s h Hh) as (Hc & Hd & He & _).
  unfold path, exists_. unfold_M. cbn.
  pose proof (hash_cached (st (hash s)) h Hc) as H2.
  destruct (hash s) as [r s1 ev]; cbn in *. subst r ev.
  rewrite H2. cbn. rewrite Hd.
  destruct (os_path_exists (disk s) (posixpath.join (_env_dir (self s)) h)),
    (os_path_exists (disk s)
       (posixpath.join (_env_dir (self s)) (String.substring 0 8 h)));
    reflexivity.
Qed.

Lemma path_fails (s : State) (e : exn) :
  res (hash s) = Raise e ->
  res (path s) = Raise e /\ evs (path s) = []
  /\ disk (st (path s)) = disk s.
Proof.
  intros Hh. unfold path. unfold_M. cbn.
  assert (Hd : disk (st (hash s)) = disk s /\ evs (hash s) = []).
  { unfold hash in *. unfold_M. cbn in *.
    destruct (_hash (self s)); [discriminate|].
    destruct (content_frame s) as (Hd & He & _).
    destruct (content s) as [[c|e'] s' ev]; cbn in *; subst; auto. }
  destruct Hd as [Hd He].
  destruct (hash s) as [r s1 ev]; cbn in *. subst. auto.
Qed.

(** C4.  With [h] the hash, [path] returns the full-hash path whenever
    that path exists or the 8-character path does not, and the
    8-character path exactly when it exists and the full one does not.
    The choice is made on the disk of the call: a later call on the
    same object follows the same rule on whatever the disk has become. *)
Theorem path_resolution_rule (s : State) (h : string) :
  res (hash s) = Return h ->
  let full := posixpath.join (_env_dir (self s)) h in
  let short := posixpath.join (_env_dir (self s)) (String.substring 0 8 h) in
  res (path s) =
    Return (if os_path_exists (disk s) full
               || negb (os_path_exists (disk s) short)
            then full else short)
  /\ disk (st (path s)) = disk s
  /\ evs (path s) = []
  /\ forall fs' : FS,
      res (path {| self := self (st (path s)); disk := fs' |}) =
        Return (if os_path_exists fs' full
                   || negb (os_path_exists fs' short)
                then full else short).
Proof.
  intros Hh full short.
  destruct (hash_returns s h Hh) as (Hc & Hd & He & _ & Hdir & _).
  rewrite (path_run s h Hh). cbn [res st evs].
  split; [reflexivity|]. split; [exact Hd|]. split; [reflexivity|].
  intros fs'.
  set (s' := {| self := self (st (hash s)); disk := fs' |}).
  assert (Hh' : res (hash s') = Return h).
  { rewrite (hash_cached s' h); [reflexivity|exact Hc]. }
  rewrite (path_run s' h Hh'). cbn [res]. unfold s'. cbn [self disk].
  rewrite Hdir. reflexivity.
Qed.

(** C7.  [create_archive] raises [WorkflowError] (the spec's
    UnsupportedOperation) in every state; it performs no effect and
    leaves the object and the disk as they were. *)
Theorem create_archive_always_fails (s : State) :
  create_archive s =
    Outcome
      (Raise (WorkflowError "spack does not support environment archive."))
      s [].
Proof. reflexivity. Qed.

End Identity.

(** C9.  Two environments are equal exactly when they come from the same
    source file, whatever their content, target root or caches: equal
    sources compare equal, and different sources compare unequal even
    with the same content bytes.  Anything that is not an environment is
    unequal. *)
Theorem Env_eq_iff_same_source (e1 e2 : Env) :
  (Env_eq e1 (PyEnv e2) = true <-> file e1 = file e2)
  /\ (forall s, Env_eq e1 (PyStr s) = false)
  /\ Env_eq e1 PyNone = false.
Proof.
  split; [|split; [intros; reflexivity | reflexivity]].
  unfold Env_eq, SourceFile_eq. apply bool_decide_eq_true.
Qed.

(** ** The file system *)







Lemma rmtree_sub (und : string -> bool) (fs : FS) (p k : string) (x : node) :
  shutil_rmtree und fs p !! k = Some x -> fs !! k = Some x.
Proof.
  unfold shutil_rmtree. destruct (fs !! p) as [[d|]|]; try (intros H; exact H).
  intros H. apply map_lookup_filter_Some in H. apply H.
Qed.


(** A regular file at the path stays where it is. *)
Lemma rmtree_file (und : string -> bool) (fs : FS) (p : string)
    (data : list byte) :
  fs !! p = Some (File data) -> shutil_rmtree und fs p = fs.
Proof. intros H. unfold shutil_rmtree. rewrite H. reflexivity. Qed.

(** ** Running [create], step by step *)

Ltac run_M :=
  unfold_M;
  unfold makedirs, touch, copyfile, rmtree, remove in *;
  unfold fs_call, try_except, exists_, check_output, NamedTemporaryFile,
    tmp_write in *;
  unfold_M;
  cbn [res st evs self disk fst snd app for_last] in *.

Section Runs.

Context `{P : Platform}.

Lemma materialize_run (s : State) :
  materialize s =
    if nonlocal (file (self s)) then
      let s1 := {| self := self s;
                   disk := <[tmp_name s := File []]> (disk s) |} in
      match res (content s1) with
      | Return c =>
          Outcome (Return (tmp_name s, Some (tmp_name s)))
            {| self := self (st (content s1));
               disk := <[tmp_name s := File c]>
                         (<[tmp_name s := File []]> (disk s)) |}
            [EvTempfile (tmp_name s); EvWrite (tmp_name s) c]
      | Raise e => Outcome (Raise e) s1 [EvTempfile (tmp_name s)]
      end
    else Outcome (Return (get_path_or_uri (file (self s)), None)) s [].
Proof.
  unfold materialize, nonlocal, tmp_name. run_M.
  destruct (negb (isinstance_LocalSourceFile (file (self s)))
            || isinstance_LocalGitFile (file (self s))); [|reflexivity].
  run_M.
  set (s1 := {| self := self s; disk := _ |}).
  destruct (content_frame s1) as (Hd & He & _).
  pose proof (content_run s1) as Hr.
  destruct (content s1) as [[c|e] s2 ev]; cbn [res st evs] in *; subst ev.
  - cbn [app]. rewrite Hd. reflexivity.
  - cbn [app]. f_equal.
    destruct (_content (self s1)); [discriminate|].
    destruct (sourcecache_read (file (self s1))); [discriminate|].
    congruence.
Qed.

Lemma finish_run (t : option string) (p : string) (s : State) :
  finish t p s =
    if truthy t then
      match os_remove (disk s) (default "" t) with
      | Some fs' =>
          Outcome (Return p) {| self := self s; disk := fs' |}
            [EvRemove (default "" t)]
      | None => Outcome (Raise (OSError "remove")) s []
      end
    else Outcome (Return p) s [].
Proof.
  unfold finish. run_M. destruct (truthy t); run_M; [|reflexivity].
  destruct (os_remove (disk s) (default "" t)); reflexivity.
Qed.

(** The provisioning sequence with its roll-back: seven ways out. *)
Lemma provision_run (f p : string) (s : State) :
  try_except (provision f p) (rollback f p) s =
    let start := posixpath.join p "env_setup_start" in
    let target := posixpath.join p "spack.yaml" in
    let done := posixpath.join p "env_setup_done" in
    let c1 := create_cmd p target in
    let c2 := activate_cmd p in
    let failed out :=
      Raise (CreateSpackEnvironmentException
               ("Could not create spack environment from " +:+ f
                  +:+ ":" +:+ nl +:+ out)) in
    match os_makedirs (disk s) p with
    | None => Outcome (Raise (OSError "makedirs")) s []
    | Some fs1 =>
      match path_touch fs1 start with
      | None =>
          Outcome (Raise (OSError "touch"))
            {| self := self s; disk := fs1 |} [EvMakedirs p]
      | Some fs2 =>
        match shutil_copyfile fs2 f target with
        | None =>
            Outcome (Raise (OSError "copyfile"))
              {| self := self s; disk := fs2 |}
              [EvMakedirs p; EvTouch start]
        | Some fs3 =>
          let pr1 := shell_check_output c1 fs3 in
          if exit_ok pr1 then
            let pr2 := shell_check_output c2 (disk_after pr1) in
            if exit_ok pr2 then
              match path_touch (disk_after pr2) done with
              | None =>
                  Outcome (Raise (OSError "touch"))
                    {| self := self s; disk := disk_after pr2 |}
                    [EvMakedirs p; EvTouch start; EvCopyfile f target;
                     EvShell c1 true (output pr1);
                     EvShell c2 true (output pr2)]
              | Some fs6 =>
                  Outcome (Return tt) {| self := self s; disk := fs6 |}
                    [EvMakedirs p; EvTouch start; EvCopyfile f target;
                     EvShell c1 true (output pr1);
                     EvShell c2 true (output pr2); EvTouch done]
              end
            else
              Outcome (failed (output pr2))
                {| self := self s;
                   disk := shutil_rmtree undeletable (disk_after pr2) p |}
                [EvMakedirs p; EvTouch start; EvCopyfile f target;
                 EvShell c1 true (output pr1);
                 EvShell c2 false (output pr2); EvRmtree p]
          else
            Outcome (failed (output pr1))
              {| self := self s;
                 disk := shutil_rmtree undeletable (disk_after pr1) p |}
              [EvMakedirs p; EvTouch start; EvCopyfile f target;
               EvShell c1 false (output pr1); EvRmtree p]
        end
      end
    end.
Proof.
  unfold provision, rollback. run_M.
  destruct (os_makedirs (disk s) p) as [fs1|]; run_M; [|reflexivity].
  destruct (path_touch fs1 _) as [fs2|]; run_M; [|reflexivity].
  destruct (shutil_copyfile fs2 f _) as [fs3|]; run_M; [|reflexivity].
  destruct (exit_ok (shell_check_output _ fs3)); run_M; [|reflexivity].
  destruct (exit_ok (shell_check_output _ _)); run_M; [|reflexivity].
  destruct (path_touch _ _) as [fs6|]; run_M; reflexivity.
Qed.

Lemma check_broken_run (p : string) (dryrun : bool) (s : State) :
  check_broken_environment p dryrun s =
    if is_broken (disk s) p then Outcome (Raise (BrokenEnvironment p)) s []
    else Outcome (Return tt) s [].
Proof.
  unfold check_broken_environment. run_M.
  destruct (is_broken (disk s) p); reflexivity.
Qed.

Lemma path_returns (s : State) (p : string) :
  res (path s) = Return p ->
  path s = Outcome (Return p) (st (hash s)) []
  /\ exists h, res (hash s) = Return h.
Proof.
  intros Hp. destruct (res (hash s)) as [h|e] eqn:Hh.
  - pose proof (path_run s h Hh) as Hrun. rewrite Hrun in Hp |- *.
    cbn [res] in Hp. rewrite Hp. eauto.
  - destruct (path_fails s e Hh) as [Hr _]. congruence.
Qed.

Lemma path_raises (s : State) (e : exn) :
  res (path s) = Raise e ->
  exists s', path s = Outcome (Raise e) s' [] /\ disk s' = disk s.
Proof.
  intros Hp. destruct (res (hash s)) as [h|e'] eqn:Hh.
  - rewrite (path_run s h Hh) in Hp. discriminate.
  - destruct (path_fails s e' Hh) as (Hr & He & Hd).
    destruct (path s) as [r s' ev]; cbn [res st evs] in *.
    assert (e' = e) as -> by congruence. subst. eauto.
Qed.

(** [create] once the specification is at hand and the path is
    resolved: broken, reused, announced, or provisioned. *)
Lemma create_at_run (dryrun : bool) (f : string) (t : option string)
    (s : State) (p : string) :
  res (path s) = Return p ->
  create_at dryrun f t s =
    if is_broken (disk s) p then
      Outcome (Raise (BrokenEnvironment p)) (st (hash s)) []
    else if os_path_exists (disk s) p then finish t p (st (hash s))
    else if dryrun then Outcome (Return p) (st (hash s)) []
    else
      match try_except (provision f p) (rollback f p) (st (hash s)) with
      | Outcome (Return _) s2 e2 =>
          match finish t p s2 with
          | Outcome r s3 e3 => Outcome r s3 (e2 ++ e3)
          end
      | Outcome (Raise e) s2 e2 => Outcome (Raise e) s2 e2
      end.
Proof.
  intros Hp. destruct (path_returns s p Hp) as [Hrun [h Hh]].
  destruct (hash_returns s h Hh) as (_ & Hd & _).
  unfold create_at. unfold_M. rewrite Hrun.
  rewrite check_broken_run, Hd.
  destruct (is_broken (disk s) p); [reflexivity|].
  unfold exists_. rewrite Hd.
  destruct (os_path_exists (disk s) p); cbn [negb].
  - destruct (finish t p (st (hash s))); reflexivity.
  - destruct dryrun; [reflexivity|].
    destruct (try_except _ _ _) as [[[]|e] s2 e2]; [|reflexivity].
    destruct (finish t p s2); reflexivity.
Qed.

Lemma create_at_raises (dryrun : bool) (f : string) (t : option string)
    (s : State) (e : exn) :
  res (path s) = Raise e ->
  exists s', create_at dryrun f t s = Outcome (Raise e) s' []
             /\ disk s' = disk s.
Proof.
  intros Hp. destruct (path_raises s e Hp) as (s' & Hrun & Hd).
  exists s'. split; [|exact Hd].
  unfold create_at. unfold_M. rewrite Hrun. reflexivity.
Qed.

Lemma create_unfold (dryrun : bool) (s : State) :
  create dryrun s =
    match materialize s with
    | Outcome (Return files) s1 e1 =>
        match create_at dryrun files.1 files.2 s1 with
        | Outcome r s2 e2 => Outcome r s2 (e1 ++ e2)
        end
    | Outcome (Raise e) s1 e1 => Outcome (Raise e) s1 e1
    end.
Proof. reflexivity. Qed.

End Runs.

(** Case analysis over every way [create] can run: the goal is left once
    for each, with the outcome of [create dryrun s] spelled out. *)
Ltac finish_cases :=
  rewrite ?finish_run;
  match goal with
  | |- context [truthy ?t] =>
      let Ht := fresh "Ht" in destruct (truthy t) eqn:Ht
  | _ => idtac
  end;
  try match goal with
  | |- context [os_remove ?d ?k] =>
      let Hrm := fresh "Hrm" in
      let fs' := fresh "fs'" in
      destruct (os_remove d k) as [fs'|] eqn:Hrm
  end;
  cbn [res st evs self disk app fst snd].

Ltac provision_cases :=
  rewrite provision_run; cbv zeta;
  let Hmk := fresh "Hmk" in
  let Hts := fresh "Hts" in
  let Hcp := fresh "Hcp" in
  let Hx1 := fresh "Hx1" in
  let Hx2 := fresh "Hx2" in
  let Htd := fresh "Htd" in
  let fs1 := fresh "fs1" in
  let fs2 := fresh "fs2" in
  let fs3 := fresh "fs3" in
  let fs6 := fresh "fs6" in
  match goal with
  | |- context [os_makedirs ?d ?p] =>
      destruct (os_makedirs d p) as [fs1|] eqn:Hmk
  end;
  [ match goal with
    | |- context [path_touch fs1 ?k] =>
        destruct (path_touch fs1 k) as [fs2|] eqn:Hts
    end;
    [ match goal with
      | |- context [shutil_copyfile fs2 ?a ?b] =>
          destruct (shutil_copyfile fs2 a b) as [fs3|] eqn:Hcp
      end;
      [ match goal with
        | |- context [exit_ok (shell_check_output ?c fs3)] =>
            destruct (exit_ok (shell_check_output c fs3)) eqn:Hx1
        end;
        [ match goal with
          | |- context [exit_ok (shell_check_output ?c (disk_after ?pr))] =>
              destruct (exit_ok (shell_check_output c (disk_after pr)))
                eqn:Hx2
          end;
          [ match goal with
            | |- context [path_touch (disk_after ?pr) ?k] =>
                destruct (path_touch (disk_after pr) k) as [fs6|] eqn:Htd
            end
          | ]
        | ]
      | ]
    | ]
  | ];
  cbn [res st evs self disk app fst snd].

Ltac create_at_cases dryrun s :=
  let p := fresh "p" in
  let e := fresh "e" in
  let Hp := fresh "Hp" in
  match goal with
  | |- context [create_at dryrun ?f ?t ?s3] =>
      destruct (res (path s3)) as [p|e] eqn:Hp;
      [ rewrite (create_at_run dryrun f t s3 p Hp);
        let Hbr := fresh "Hbr" in
        let Hex := fresh "Hex" in
        destruct (is_broken (disk s3) p) eqn:Hbr;
        [ | destruct (os_path_exists (disk s3) p) eqn:Hex;
            [ finish_cases
            | destruct dryrun;
              [ | provision_cases; try finish_cases ] ] ]
      | let s' := fresh "s'" in
        let Hr := fresh "Hr" in
        let Hd := fresh "Hd" in
        destruct (create_at_raises dryrun f t s3 e Hp) as (s' & Hr & Hd);
        rewrite Hr ]
  end;
  cbn [res st evs self disk app fst snd].

Ltac create_cases dryrun s :=
  rewrite ?(create_unfold dryrun s), ?(materialize_run s);
  let Hnl := fresh "Hnl" in
  destruct (nonlocal (file (self s))) eqn:Hnl;
  [ cbv zeta;
    let c := fresh "c" in
    let e := fresh "e" in
    let Hc := fresh "Hc" in
    match goal with
    | |- context [res (content ?s1)] =>
        destruct (res (content s1)) as [c|e] eqn:Hc
    end;
    [ cbn [fst snd]; create_at_cases dryrun s | ]
  | cbn [fst snd]; create_at_cases dryrun s ];
  cbn [res st evs self disk app fst snd].

Ltac all_but_last2 l :=
  lazymatch l with
  | [_; _] => constr:(@nil event)
  | ?a :: ?l' => let r := all_but_last2 l' in constr:(a :: r)
  end.

Section Provisioning.

Context `{P : Platform}.


Lemma create_cmd_not_locate (p t : string) :
  create_cmd p t <> "type spack" /\ create_cmd p t <> "where spack".
Proof. split; discriminate. Qed.

Lemma activate_cmd_not_locate (p : string) :
  activate_cmd p <> "type spack" /\ activate_cmd p <> "where spack".
Proof. split; discriminate. Qed.

(** C8, as amended.  Constructing a [Spack] object runs one command,
    [type spack] ([where spack] on Windows without a shell
    executable), and touches the disk in no other way; if the command
    exits non-zero it raises [CreateSpackEnvironmentException] (the
    spec's ToolNotFound) with a message naming the 'spack' command and
    the shell executable, and otherwise returns.  [Env.create] does not
    make this check: it never runs either locate command. *)
Theorem spack_check_reports_missing_tool (s : State) :
  let locate :=
    if negb ON_WINDOWS || truthy shell_get_executable then "type spack"
    else "where spack" in
  let pr := shell_check_output locate (disk s) in
  evs (Spack_init s) = [EvShell locate (exit_ok pr) (output pr)]
  /\ self (st (Spack_init s)) = self s
  /\ disk (st (Spack_init s)) = disk_after pr
  /\ res (Spack_init s) =
       (if exit_ok pr then Return tt
        else Raise (CreateSpackEnvironmentException
                      ("The 'spack' command is not available in the shell "
                         +:+ format_opt shell_get_executable
                         +:+ " that will be used by Snakemake. You have to ensure that it is in your PATH.")))
  /\ forall dryrun s',
       ~ In "type spack" (shell_cmds (evs (create dryrun s')))
       /\ ~ In "where spack" (shell_cmds (evs (create dryrun s'))).
Proof.
  intros locate pr. unfold Spack_init, Spack__check. fold locate.
  run_M. fold pr.
  split; [destruct (exit_ok pr); reflexivity|].
  split; [destruct (exit_ok pr); reflexivity|].
  split; [destruct (exit_ok pr); reflexivity|].
  split; [destruct (exit_ok pr); reflexivity|].
  clear locate pr s. intros dryrun s.
  create_cases dryrun s.
  all: cbn [shell_cmds In].
  all: split; intros H1; repeat (destruct H1 as [H1|H1]); try contradiction.
  all: first [ eapply (proj1 (create_cmd_not_locate _ _)), H1
             | eapply (proj2 (create_cmd_not_locate _ _)), H1
             | eapply (proj1 (activate_cmd_not_locate _)), H1
             | eapply (proj2 (activate_cmd_not_locate _)), H1 ].
Qed.

End Provisioning.

(** ** Reuse of an environment that is already there *)

Section Reuse.

Context `{P : Platform}.

Lemma content_pure (s : State) :
  content s =
    Outcome (content_of (self s)).1
      {| self := (content_of (self s)).2; disk := disk s |} [].
Proof.
  rewrite content_run. unfold content_of. destruct s as [e d].
  cbn [self disk]. destruct (_content e); [reflexivity|].
  destruct (sourcecache_read (file e)); reflexivity.
Qed.

Lemma hash_pure (s : State) :
  hash s =
    Outcome (hash_of (self s)).1
      {| self := (hash_of (self s)).2; disk := disk s |} [].
Proof.
  unfold hash, hash_of. unfold_M. cbn [self disk res st evs].
  destruct (_hash (self s)); [destruct s; reflexivity|].
  rewrite content_pure.
  destruct (content_of (self s)) as [[c|x] e']; cbn [fst snd self disk app].
  - rewrite update_twice. reflexivity.
  - reflexivity.
Qed.

Lemma path_pure (s : State) :
  path s =
    match (hash_of (self s)).1 with
    | Return h =>
        Outcome (Return (resolve (_env_dir (self s)) h (disk s)))
          {| self := (hash_of (self s)).2; disk := disk s |} []
    | Raise x =>
        Outcome (Raise x)
          {| self := (hash_of (self s)).2; disk := disk s |} []
    end.
Proof.
  destruct ((hash_of (self s)).1) as [h|x] eqn:E.
  - assert (Hh : res (hash s) = Return h) by (rewrite hash_pure; exact E).
    rewrite (path_run s h Hh), hash_pure. reflexivity.
  - unfold path. unfold_M. rewrite hash_pure, E. reflexivity.
Qed.

Lemma content_of_fields (e : Env) :
  file (content_of e).2 = file e
  /\ _env_dir (content_of e).2 = _env_dir e
  /\ _hash (content_of e).2 = _hash e.
Proof.
  unfold content_of. destruct (_content e); [easy|].
  destruct (sourcecache_read (file e)); easy.
Qed.

Lemma content_of_cached (e : Env) (c : list byte) :
  (content_of e).1 = Return c -> _content (content_of e).2 = Some c.
Proof.
  unfold content_of. destruct (_content e) eqn:E; cbn.
  - congruence.
  - destruct (sourcecache_read (file e)); cbn; congruence.
Qed.

Lemma content_of_again (e : Env) (c : list byte) :
  _content e = Some c -> content_of e = (Return c, e).
Proof. intros E. unfold content_of. rewrite E. reflexivity. Qed.

Lemma hash_of_fields (e : Env) :
  file (hash_of e).2 = file e /\ _env_dir (hash_of e).2 = _env_dir e.
Proof.
  unfold hash_of. destruct (_hash e); [easy|].
  destruct (content_of_fields e) as (Hf & Hd & _).
  destruct (content_of e) as [[c|x] e']; cbn [fst snd] in *; easy.
Qed.

Lemma hash_of_cached (e : Env) (h : string) :
  (hash_of e).1 = Return h -> _hash (hash_of e).2 = Some h.
Proof.
  unfold hash_of. destruct (_hash e) eqn:E; cbn; [congruence|].
  destruct (content_of e) as [[c|x] e']; cbn; congruence.
Qed.

Lemma hash_of_again (e : Env) (h : string) :
  _hash e = Some h -> hash_of e = (Return h, e).
Proof. intros E. unfold hash_of. rewrite E. reflexivity. Qed.

Lemma hash_input_dir (e e' : Env) (c : list byte) :
  _env_dir e' = _env_dir e -> hash_input e' c = hash_input e c.
Proof. intros H. unfold hash_input. rewrite H. reflexivity. Qed.

(** Every method keeps the caches in order. *)
Lemma Env_init_caches_ok (f : SourceFile) (wf : Workflow)
    (d : option string) (cl : option SpackCleanupMode) :
  caches_ok (Env_init f wf d cl).
Proof. intros h. discriminate. Qed.

Lemma content_of_caches_ok (e : Env) :
  caches_ok e -> caches_ok (content_of e).2.
Proof.
  intros Hok. unfold content_of. destruct (_content e) eqn:E; [exact Hok|].
  destruct (sourcecache_read (file e)); [|exact Hok].
  intros h Hh. cbn in Hh. destruct (Hok h Hh) as (c & Hc & _). congruence.
Qed.

Lemma hash_of_caches_ok (e : Env) :
  caches_ok e -> caches_ok (hash_of e).2.
Proof.
  intros Hok. unfold hash_of. destruct (_hash e) eqn:E; [exact Hok|].
  pose proof (content_of_caches_ok e Hok) as Hok'.
  destruct (content_of_fields e) as (_ & Hd & _).
  pose proof (content_of_cached e) as Hcc.
  destruct (content_of e) as [[c|x] e']; cbn [fst snd] in *; [|exact Hok'].
  intros h Hh. cbn in Hh. injection Hh as <-.
  exists c. split; [cbn; apply Hcc; reflexivity|].
  f_equal. symmetry. apply hash_input_dir. exact Hd.
Qed.

(** A hash is 32 lowercase hex digits when the caches are in order. *)
Lemma hash_of_shape (e : Env) (h : string) :
  caches_ok e -> (hash_of e).1 = Return h ->
  lower_hex_string h = true /\ String.length h = 32.
Proof.
  intros Hok. unfold hash_of. destruct (_hash e) as [h'|] eqn:E.
  - cbn. intros [= ->]. destruct (Hok h E) as (c & _ & ->).
    split; [apply hexdigest_lower | apply hexdigest_length].
  - destruct (content_of e) as [[c|x] e']; cbn; [|discriminate].
    intros [= <-].
    split; [apply hexdigest_lower | apply hexdigest_length].
Qed.

(** Reading the content first does not change the hash. *)
Lemma hash_of_after_content (e : Env) (c : list byte) :
  (content_of e).1 = Return c ->
  (hash_of (content_of e).2).1 = (hash_of e).1.
Proof.
  intros Hc. destruct (content_of_fields e) as (_ & Hd & Hh).
  pose proof (content_of_cached e c Hc) as Hcc.
  unfold hash_of. rewrite Hh. destruct (_hash e); [reflexivity|].
  rewrite (content_of_again _ c Hcc).
  destruct (content_of e) as [[c'|x] e']; cbn [fst snd] in *; [|discriminate].
  injection Hc as ->. f_equal. f_equal. apply hash_input_dir. exact Hd.
Qed.

End Reuse.

(** ** Disks that differ at one name *)

Lemma agree_off_refl (t : string) (d : FS) : agree_off t d d.
Proof. intros k _. reflexivity. Qed.

Lemma agree_off_sym (t : string) (d d' : FS) :
  agree_off t d d' -> agree_off t d' d.
Proof. intros H k Hk. symmetry. apply H, Hk. Qed.

Lemma agree_off_trans (t : string) (d1 d2 d3 : FS) :
  agree_off t d1 d2 -> agree_off t d2 d3 -> agree_off t d1 d3.
Proof. intros H1 H2 k Hk. rewrite (H1 k Hk). apply H2, Hk. Qed.

Lemma agree_off_insert (t : string) (x : node) (d : FS) :
  agree_off t d (<[t := x]> d).
Proof. intros k Hk. rewrite lookup_insert_ne; [reflexivity | congruence]. Qed.

Lemma agree_off_delete (t : string) (d : FS) : agree_off t d (delete t d).
Proof. intros k Hk. rewrite lookup_delete_ne; [reflexivity | congruence]. Qed.

Lemma exists_agree (t k : string) (d d' : FS) :
  agree_off t d d' -> k <> t -> os_path_exists d k = os_path_exists d' k.
Proof. intros H Hk. unfold os_path_exists. rewrite (H k Hk). reflexivity. Qed.

Lemma ne_by_last (a b : string) (c c' : ascii) :
  last_char a = Some c -> last_char b = Some c' -> c <> c' -> a <> b.
Proof. intros Ha Hb Hc ->. congruence. Qed.

Lemma sentinel_last (p : string) :
  last_char (posixpath.join p "env_setup_start") = Some "t"%char
  /\ last_char (posixpath.join p "env_setup_done") = Some "e"%char.
Proof. split; rewrite last_char_join; try reflexivity; discriminate. Qed.

Lemma is_broken_agree (t p : string) (d d' : FS) :
  last_char t = Some "l"%char -> agree_off t d d' ->
  is_broken d p = is_broken d' p.
Proof.
  intros Ht H. destruct (sentinel_last p) as [Hs Hd]. unfold is_broken.
  rewrite (exists_agree t _ d d' H), (exists_agree t (posixpath.join p "env_setup_done") d d' H);
    [reflexivity | |].
  - eapply ne_by_last; [exact Hd | exact Ht | discriminate].
  - eapply ne_by_last; [exact Hs | exact Ht | discriminate].
Qed.

(** ** The resolved path *)

Lemma hash_nonempty (h : string) : String.length h = 32 -> h <> "".
Proof. intros H ->. discriminate. Qed.

Lemma candidates_last (dir h : string) :
  lower_hex_string h = true -> String.length h = 32 ->
  (exists c, last_char (posixpath.join dir h) = Some c
             /\ is_lower_hex c = true)
  /\ (exists c, last_char (posixpath.join dir (String.substring 0 8 h)) = Some c
                /\ is_lower_hex c = true).
Proof.
  intros Hx Hl. pose proof (hash_nonempty h Hl) as Hn. split.
  - rewrite last_char_join by exact Hn. apply lower_hex_last; assumption.
  - pose proof (prefix_nonempty 7 h Hn) as Hn'.
    rewrite last_char_join by exact Hn'.
    apply lower_hex_last; [apply lower_hex_prefix, Hx | exact Hn'].
Qed.

Lemma resolve_last (dir h : string) (fs : FS) :
  lower_hex_string h = true -> String.length h = 32 ->
  exists c, last_char (resolve dir h fs) = Some c /\ is_lower_hex c = true.
Proof.
  intros Hx Hl. destruct (candidates_last dir h Hx Hl) as [Hf Hs].
  unfold resolve. destruct (_ || _); assumption.
Qed.

Lemma hex_ne_tmp (k t : string) (c : ascii) :
  last_char k = Some c -> is_lower_hex c = true ->
  last_char t = Some "l"%char -> k <> t.
Proof.
  intros Hk Hc Ht. eapply ne_by_last; [exact Hk | exact Ht |].
  apply is_lower_hex_chars, Hc.
Qed.

Lemma resolve_agree (t dir h : string) (d d' : FS) :
  last_char t = Some "l"%char ->
  lower_hex_string h = true -> String.length h = 32 ->
  agree_off t d d' -> resolve dir h d = resolve dir h d'.
Proof.
  intros Ht Hx Hl H.
  destruct (candidates_last dir h Hx Hl) as [(c1 & H1 & Hc1) (c2 & H2 & Hc2)].
  unfold resolve.
  rewrite (exists_agree t (posixpath.join dir h) d d' H),
    (exists_agree t (posixpath.join dir (String.substring 0 8 h)) d d' H);
    [reflexivity | |]; eapply hex_ne_tmp; eassumption.
Qed.

Lemma resolve_missing (dir h : string) (fs : FS) :
  os_path_exists fs (resolve dir h fs) = false ->
  resolve dir h fs = posixpath.join dir h.
Proof.
  unfold resolve.
  destruct (os_path_exists fs (posixpath.join dir h)) eqn:E1; [reflexivity|].
  destruct (os_path_exists fs (posixpath.join dir (String.substring 0 8 h)))
    eqn:E2; [|reflexivity].
  cbn. congruence.
Qed.

Lemma resolve_full (dir h : string) (fs : FS) :
  os_path_exists fs (posixpath.join dir h) = true ->
  resolve dir h fs = posixpath.join dir h.
Proof. intros E. unfold resolve. rewrite E. reflexivity. Qed.

Section Resolution.

Context `{P : Platform}.

Lemma tmp_name_last (s : State) : last_char (tmp_name s) = Some "l"%char.
Proof.
  unfold tmp_name. rewrite last_char_app; [reflexivity | discriminate].
Qed.

Lemma tmp_name_truthy (s : State) : truthy (Some (tmp_name s)) = true.
Proof.
  cbn. apply negb_true_iff, String.eqb_neq.
  eapply last_char_some_nonempty, tmp_name_last.
Qed.

Lemma path_resolved (s : State) (p : string) :
  res (path s) = Return p ->
  exists h, (hash_of (self s)).1 = Return h
            /\ p = resolve (_env_dir (self s)) h (disk s).
Proof.
  rewrite path_pure. destruct ((hash_of (self s)).1) as [h|x]; cbn [res].
  - intros [= <-]. eauto.
  - discriminate.
Qed.

Lemma path_of_hash (s : State) (h : string) :
  (hash_of (self s)).1 = Return h ->
  res (path s) = Return (resolve (_env_dir (self s)) h (disk s)).
Proof. intros H. rewrite path_pure, H. reflexivity. Qed.

Lemma hash_of_content (e : Env) (h : string) :
  caches_ok e -> (hash_of e).1 = Return h ->
  exists c, (content_of e).1 = Return c.
Proof.
  intros Hok. unfold hash_of. destruct (_hash e) as [h'|] eqn:E.
  - intros _. destruct (Hok h' E) as (c & Hc & _).
    rewrite (content_of_again e c Hc). eauto.
  - destruct (content_of e) as [[c|x] e']; cbn; [eauto | discriminate].
Qed.

End Resolution.

Lemma os_remove_delete (fs fs' : FS) (k : string) :
  os_remove fs k = Some fs' -> fs' = delete k fs.
Proof.
  unfold os_remove. destruct (fs !! k) as [[d|]|]; congruence.
Qed.

(** A successful touch of the done sentinel: the directory and the
    sentinel are there afterwards. *)
Lemma touch_done_there (fs fs' : FS) (p : string) (c : ascii) :
  last_char p = Some c -> is_lower_hex c = true ->
  path_touch fs (posixpath.join p "env_setup_done") = Some fs' ->
  os_path_exists fs' p = true
  /\ os_path_exists fs' (posixpath.join p "env_setup_done") = true.
Proof.
  intros Hl Hc. pose proof (is_lower_hex_chars c Hc) as (Hsep & _).
  rewrite (join_plain p "env_setup_done" c Hl Hsep eq_refl).
  unfold path_touch, parent_exists.
  rewrite (dirname_join p "env_setup_done" c Hl Hsep eq_refl).
  assert (String.eqb p "" = false) as ->.
  { apply String.eqb_neq. eapply last_char_some_nonempty, Hl. }
  assert (String.eqb p "/" = false) as ->.
  { apply String.eqb_neq. intros ->. cbn in Hl. congruence. }
  cbn [orb]. unfold os_path_isdir, os_path_exists.
  destruct (fs !! p) as [[d|]|] eqn:Ep; try discriminate.
  destruct (fs !! (p +:+ "/" +:+ "env_setup_done")) as [x|] eqn:Ed.
  - intros [= <-]. rewrite Ep, Ed. auto.
  - intros [= <-]. rewrite lookup_insert_eq.
    rewrite lookup_insert_ne by (intros E; rewrite E in Ed; congruence).
    rewrite Ep. auto.
Qed.

Section Materialized.

Context `{P : Platform}.

Lemma materialize_local (s : State) :
  nonlocal (file (self s)) = false ->
  materialize s =
    Outcome (Return (get_path_or_uri (file (self s)), None)) s [].
Proof. intros H. rewrite materialize_run, H. reflexivity. Qed.

Lemma materialize_nonlocal (s : State) (c : list byte) :
  nonlocal (file (self s)) = true ->
  res (content s) = Return c ->
  materialize s =
    Outcome (Return (tmp_name s, Some (tmp_name s)))
      {| self := (content_of (self s)).2;
         disk := <[tmp_name s := File c]> (disk s) |}
      [EvTempfile (tmp_name s); EvWrite (tmp_name s) c].
Proof.
  intros H Hc. rewrite materialize_run, H. cbv zeta.
  rewrite content_pure in Hc |- *. cbn [res st self disk] in *.
  rewrite Hc, insert_insert_eq. reflexivity.
Qed.

Lemma materialize_fails (s : State) (x : exn) :
  nonlocal (file (self s)) = true ->
  res (content s) = Raise x ->
  materialize s =
    Outcome (Raise x)
      {| self := self s; disk := <[tmp_name s := File []]> (disk s) |}
      [EvTempfile (tmp_name s)].
Proof.
  intros H Hc. rewrite materialize_run, H. cbv zeta.
  rewrite content_pure in Hc |- *. cbn [res st self disk] in *.
  rewrite Hc. reflexivity.
Qed.

(** The target is there and whole: nothing but the end of [create] is
    left to do. *)
Lemma create_at_reuse (dryrun : bool) (f : string) (t : option string)
    (s : State) (p : string) :
  res (path s) = Return p ->
  os_path_exists (disk s) p = true -> is_broken (disk s) p = false ->
  create_at dryrun f t s =
    finish t p {| self := (hash_of (self s)).2; disk := disk s |}.
Proof.
  intros Hp Hex Hbr.
  rewrite (create_at_run dryrun f t s p Hp), Hbr, Hex, hash_pure.
  reflexivity.
Qed.

(** What [path] gives is not disturbed by the temporary file. *)
Lemma path_materialized (s : State) (p : string) (c : list byte) (d' : FS) :
  caches_ok (self s) -> res (path s) = Return p ->
  (content_of (self s)).1 = Return c ->
  agree_off (tmp_name s) (disk s) d' ->
  res (path {| self := (content_of (self s)).2; disk := d' |}) = Return p.
Proof.
  intros Hok Hp Hc Hd. destruct (path_resolved s p Hp) as (h & Hh & ->).
  destruct (hash_of_shape (self s) h Hok Hh) as [Hx Hl].
  destruct (content_of_fields (self s)) as (_ & Hdir & _).
  rewrite (path_of_hash _ h).
  - cbn [self disk]. rewrite Hdir. f_equal. symmetry.
    apply (resolve_agree (tmp_name s)); auto using tmp_name_last.
  - cbn [self]. rewrite (hash_of_after_content _ c Hc). exact Hh.
Qed.

(** [create] on a target that is there and whole, in full. *)
Lemma create_reuse (dryrun : bool) (s : State) (p : string) :
  caches_ok (self s) -> res (path s) = Return p ->
  os_path_exists (disk s) p = true -> is_broken (disk s) p = false ->
  (nonlocal (file (self s)) = false ->
   create dryrun s =
     Outcome (Return p) {| self := (hash_of (self s)).2; disk := disk s |} [])
  /\ (nonlocal (file (self s)) = true ->
      exists c,
        res (content s) = Return c
        /\ create dryrun s =
             Outcome (Return p)
               {| self := (hash_of (content_of (self s)).2).2;
                  disk := delete (tmp_name s) (disk s) |}
               [EvTempfile (tmp_name s); EvWrite (tmp_name s) c;
                EvRemove (tmp_name s)]).
Proof.
  intros Hok Hp Hex Hbr. split; intros Hnl.
  - rewrite create_unfold, (materialize_local s Hnl). cbn [fst snd].
    rewrite (create_at_reuse dryrun _ None s p Hp Hex Hbr), finish_run.
    reflexivity.
  - destruct (path_resolved s p Hp) as (h & Hh & Hres).
    destruct (hash_of_shape (self s) h Hok Hh) as [Hx Hl].
    destruct (resolve_last (_env_dir (self s)) h (disk s) Hx Hl)
      as (ch & Hlast & Hhex).
    rewrite <- Hres in Hlast.
    assert (Hne : p <> tmp_name s).
    { eapply hex_ne_tmp; eauto using tmp_name_last. }
    destruct (hash_of_content (self s) h Hok Hh) as [c Hc].
    assert (Hc' : res (content s) = Return c).
    { rewrite content_pure. exact Hc. }
    exists c. split; [exact Hc'|].
    rewrite create_unfold, (materialize_nonlocal s c Hnl Hc'). cbn [fst snd].
    set (s2 := {| self := (content_of (self s)).2;
                  disk := <[tmp_name s := File c]> (disk s) |}).
    assert (Hag : agree_off (tmp_name s) (disk s) (disk s2))
      by apply agree_off_insert.
    assert (Hp2 : res (path s2) = Return p)
      by (apply (path_materialized s p c); assumption).
    assert (Hex2 : os_path_exists (disk s2) p = true).
    { rewrite <- (exists_agree (tmp_name s) p (disk s) (disk s2)); auto. }
    assert (Hbr2 : is_broken (disk s2) p = false).
    { rewrite <- (is_broken_agree (tmp_name s) p (disk s) (disk s2));
        auto using tmp_name_last. }
    rewrite (create_at_reuse dryrun _ _ s2 p Hp2 Hex2 Hbr2), finish_run.
    rewrite tmp_name_truthy. cbn [default self disk s2].
    unfold os_remove. rewrite lookup_insert_eq, delete_insert_eq.
    reflexivity.
Qed.

End Materialized.

Section Idempotence.

Context `{P : Platform}.

Lemma path_of_cached (e : Env) (h : string) (d : FS) (p : string) :
  _hash e = Some h -> p = resolve (_env_dir e) h d ->
  res (path {| self := e; disk := d |}) = Return p.
Proof.
  intros Hh ->. rewrite (path_of_hash _ h); [reflexivity|].
  cbn [self]. rewrite (hash_of_again e h Hh). reflexivity.
Qed.

(** After [create] has returned a path, that path is the resolved one,
    it is there and it is whole. *)
Lemma create_at_returns_ready (f : string) (t : option string)
    (s s' : State) (p : string) (ev : list event) :
  caches_ok (self s) ->
  (forall k, t = Some k -> last_char k = Some "l"%char) ->
  create_at false f t s = Outcome (Return p) s' ev ->
  caches_ok (self s') /\ res (path s') = Return p
  /\ os_path_exists (disk s') p = true /\ is_broken (disk s') p = false.
Proof.
  intros Hok Ht.
  destruct (res (path s)) as [p0|x] eqn:Hp.
  2:{ destruct (create_at_raises false f t s x Hp) as (s1 & Hr & _).
      rewrite Hr. discriminate. }
  destruct (path_resolved s p0 Hp) as (h & Hh & Hres).
  destruct (hash_of_shape (self s) h Hok Hh) as [Hx Hl].
  destruct (resolve_last (_env_dir (self s)) h (disk s) Hx Hl)
    as (ch & Hlast & Hhex).
  rewrite <- Hres in Hlast.
  pose proof (hash_of_caches_ok _ Hok) as Hok4.
  pose proof (hash_of_cached _ _ Hh) as Hc4.
  destruct (hash_of_fields (self s)) as [_ Hdir4].
  rewrite (create_at_run false f t s p0 Hp), hash_pure. cbn [st].
  set (e4 := (hash_of (self s)).2) in *.
  destruct (is_broken (disk s) p0) eqn:Hbr; [discriminate|].
  destruct (os_path_exists (disk s) p0) eqn:Hex.
  - rewrite finish_run. destruct (truthy t) eqn:Htr.
    + destruct t as [k|]; [|cbn in Htr; discriminate Htr]. cbn [default from_option id self disk].
      destruct (os_remove (disk s) k) as [fs'|] eqn:Hrm; [|discriminate].
      intros [= <- <- _]. cbn [self disk].
      apply os_remove_delete in Hrm. subst fs'.
      pose proof (Ht k eq_refl) as Hk.
      assert (Hag : agree_off k (disk s) (delete k (disk s)))
        by apply agree_off_delete.
      split; [exact Hok4|]. split.
      { apply (path_of_cached e4 h); [exact Hc4|]. rewrite Hdir4, Hres.
        apply (resolve_agree k); auto. }
      split.
      { rewrite <- (exists_agree k p0 _ _ Hag); [exact Hex|].
        eapply hex_ne_tmp; eauto. }
      { rewrite <- (is_broken_agree k p0 _ _ Hk Hag). exact Hbr. }
    + intros [= <- <- _]. cbn [self disk].
      split; [exact Hok4|]. split; [|auto].
      apply (path_of_cached e4 h); [exact Hc4|]. rewrite Hdir4. exact Hres.
  - assert (Hfull : p0 = posixpath.join (_env_dir (self s)) h).
    { rewrite Hres. apply resolve_missing. rewrite <- Hres. exact Hex. }
    rewrite provision_run. cbv zeta. cbn [self disk].
    destruct (os_makedirs (disk s) p0) as [fs1|]; [|discriminate].
    destruct (path_touch fs1 _) as [fs2|]; [|discriminate].
    destruct (shutil_copyfile fs2 f _) as [fs3|]; [|discriminate].
    destruct (exit_ok (shell_check_output _ fs3)); [|discriminate].
    destruct (exit_ok (shell_check_output _ _)); [|discriminate].
    destruct (path_touch _ _) as [fs6|] eqn:Htd; [|discriminate].
    destruct (touch_done_there _ _ _ _ Hlast Hhex Htd) as [Hp6 Hd6].
    assert (Hfin : forall d', os_path_exists d' p0 = true ->
              os_path_exists d' (posixpath.join p0 "env_setup_done") = true ->
              caches_ok e4
              /\ res (path {| self := e4; disk := d' |}) = Return p0
              /\ os_path_exists d' p0 = true /\ is_broken d' p0 = false).
    { intros d' H1 H2. split; [exact Hok4|]. split; [|split; [exact H1|]].
      - apply (path_of_cached e4 h); [exact Hc4|]. rewrite Hdir4.
        rewrite resolve_full; [exact Hfull | rewrite <- Hfull; exact H1].
      - unfold is_broken. rewrite H2. apply andb_false_r. }
    rewrite finish_run. destruct (truthy t) eqn:Htr.
    + destruct t as [k|]; [|cbn in Htr; discriminate Htr]. cbn [default from_option id self disk].
      destruct (os_remove fs6 k) as [fs'|] eqn:Hrm; [|discriminate].
      cbn [app]. intros [= <- <- _]. cbn [self disk].
      apply os_remove_delete in Hrm. subst fs'.
      pose proof (Ht k eq_refl) as Hk.
      assert (Hag : agree_off k fs6 (delete k fs6)) by apply agree_off_delete.
      apply Hfin.
      * rewrite <- (exists_agree k p0 _ _ Hag); [exact Hp6|].
        eapply hex_ne_tmp; eauto.
      * rewrite <- (exists_agree k _ _ _ Hag); [exact Hd6|].
        eapply ne_by_last; [apply sentinel_last | exact Hk | discriminate].
    + cbn [app]. intros [= <- <- _]. cbn [self disk]. apply Hfin; assumption.
Qed.

Lemma create_returns_ready (s : State) (p : string) :
  caches_ok (self s) -> res (create false s) = Return p ->
  caches_ok (self (st (create false s)))
  /\ res (path (st (create false s))) = Return p
  /\ os_path_exists (disk (st (create false s))) p = true
  /\ is_broken (disk (st (create false s))) p = false.
Proof.
  intros Hok. rewrite create_unfold.
  destruct (nonlocal (file (self s))) eqn:Hnl.
  - destruct (res (content s)) as [c|x] eqn:Hc.
    + rewrite (materialize_nonlocal s c Hnl Hc). cbn [fst snd].
      destruct (create_at false _ _ _) as [[r|x] s' ev] eqn:Hr;
        cbn [res st]; [|discriminate].
      intros [= ->]. eapply create_at_returns_ready; [ | |exact Hr].
      * cbn [self]. apply content_of_caches_ok, Hok.
      * intros k [= <-]. apply tmp_name_last.
    + rewrite (materialize_fails s x Hnl Hc). discriminate.
  - rewrite (materialize_local s Hnl). cbn [fst snd].
    destruct (create_at false _ _ _) as [[r|x] s' ev] eqn:Hr;
      cbn [res st]; [|discriminate].
    intros [= ->]. eapply create_at_returns_ready; [exact Hok | |exact Hr].
    discriminate.
Qed.

Lemma reuse_facts (s : State) (p : string) :
  caches_ok (self s) -> res (path s) = Return p ->
  os_path_exists (disk s) p = true -> is_broken (disk s) p = false ->
  res (create false s) = Return p
  /\ shell_cmds (evs (create false s)) = []
  /\ (forall ev, In ev (evs (create false s)) ->
        exists c, ev = EvTempfile (tmp_name s)
                  \/ ev = EvWrite (tmp_name s) c
                  \/ ev = EvRemove (tmp_name s))
  /\ (nonlocal (file (self s)) = false ->
        evs (create false s) = []
        /\ disk (st (create false s)) = disk s)
  /\ agree_off (tmp_name s) (disk s) (disk (st (create false s))).
Proof.
  intros Hok Hp Hex Hbr.
  destruct (create_reuse false s p Hok Hp Hex Hbr) as [Hl Hn].
  destruct (nonlocal (file (self s))) eqn:Hnl.
  - destruct (Hn eq_refl) as (c & _ & ->). cbn [res st evs disk shell_cmds].
    split; [reflexivity|]. split; [reflexivity|]. split.
    { intros ev Hin. exists c. cbn [In] in Hin. intuition auto. }
    split; [discriminate|]. apply agree_off_delete.
  - rewrite (Hl eq_refl). cbn [res st evs disk shell_cmds].
    split; [reflexivity|]. split; [reflexivity|]. split.
    { intros ev []. }
    split; [auto|]. apply agree_off_refl.
Qed.

(** C2.  For an object whose caches are in order (as [Env.__init__]
    leaves them and every method keeps them): if the resolved path is
    there and not broken, [create(dryrun=False)] returns it without
    handing anything to the shell; the only things it does are to
    write and remove the temporary file of a source that is not a
    plain local file, so no directory or sentinel is made and the disk
    is as before (but for that temporary name).  And once [create] has
    returned a path, a second call behaves in this way and returns the
    same path: the tool is not run again. *)
Theorem existing_environment_is_reused (s : State) (p : string) :
  caches_ok (self s) ->
  let reused (s1 : State) :=
    res (create false s1) = Return p
    /\ shell_cmds (evs (create false s1)) = []
    /\ (forall ev, In ev (evs (create false s1)) ->
          exists c, ev = EvTempfile (tmp_name s1)
                    \/ ev = EvWrite (tmp_name s1) c
                    \/ ev = EvRemove (tmp_name s1))
    /\ (nonlocal (file (self s1)) = false ->
          evs (create false s1) = []
          /\ disk (st (create false s1)) = disk s1)
    /\ agree_off (tmp_name s1) (disk s1) (disk (st (create false s1))) in
  (res (path s) = Return p -> os_path_exists (disk s) p = true ->
   is_broken (disk s) p = false -> reused s)
  /\ (res (create false s) = Return p -> reused (st (create false s))).
Proof.
  intros Hok reused. split.
  - intros Hp Hex Hbr. apply reuse_facts; assumption.
  - intros Hr. destruct (create_returns_ready s p Hok Hr) as (H1 & H2 & H3 & H4).
    apply reuse_facts; assumption.
Qed.

End Idempotence.

(** ** What the provisioning steps leave in place *)




Lemma touch_keeps (fs fs' : FS) (q k : string) (x : node) :
  path_touch fs q = Some fs' -> fs !! k = Some x -> fs' !! k = Some x.
Proof.
  unfold path_touch. destruct (parent_exists fs q); [|discriminate].
  destruct (fs !! q) as [y|] eqn:E.
  - intros [= <-]. auto.
  - intros [= <-] Hk. rewrite lookup_insert_ne; [exact Hk|].
    intros ->. congruence.
Qed.




Section Temporary.

Context `{P : Platform}.



End Temporary.

(** ** The sentinels on disk *)

Lemma mkdir_there (fs fs' : FS) (p : string) :
  mkdir_exist_ok fs p = Some fs' -> fs' !! p = Some Dir.
Proof.
  unfold mkdir_exist_ok. destruct (fs !! p) as [[d|]|] eqn:E; try discriminate.
  - intros [= <-]. exact E.
  - destruct (parent_exists fs p); [|discriminate]. intros [= <-].
    apply lookup_insert_eq.
Qed.

Lemma makedirs_there (fs fs' : FS) (p : string) :
  os_makedirs fs p = Some fs' -> fs' !! p = Some Dir.
Proof.
  unfold os_makedirs. destruct (String.length p); cbn [makedirs_fuel].
  - destruct (_ || _); [apply mkdir_there | discriminate].
  - destruct (_ || _); [apply mkdir_there|].
    destruct (makedirs_fuel _ _ _); [apply mkdir_there | discriminate].
Qed.

Lemma touch_there (fs fs' : FS) (q : string) :
  path_touch fs q = Some fs' -> os_path_exists fs' q = true.
Proof.
  unfold path_touch, os_path_exists.
  destruct (parent_exists fs q); [|discriminate].
  destruct (fs !! q) as [x|] eqn:E; intros [= <-].
  - rewrite E. reflexivity.
  - rewrite lookup_insert_eq. reflexivity.
Qed.

Lemma copyfile_keeps (fs fs' : FS) (src dst k : string) :
  shutil_copyfile fs src dst = Some fs' -> k <> dst -> fs' !! k = fs !! k.
Proof.
  unfold shutil_copyfile. destruct (fs !! src) as [[data|]|]; try discriminate.
  destruct (String.eqb src dst); [discriminate|].
  destruct (os_path_isdir fs dst); [discriminate|].
  destruct (parent_exists fs dst); [|discriminate].
  intros [= <-] Hk. apply lookup_insert_ne. congruence.
Qed.

Lemma copyfile_exists (fs fs' : FS) (src dst k : string) :
  shutil_copyfile fs src dst = Some fs' ->
  os_path_exists fs k = true -> os_path_exists fs' k = true.
Proof.
  unfold shutil_copyfile. destruct (fs !! src) as [[data|]|]; try discriminate.
  destruct (String.eqb src dst); [discriminate|].
  destruct (os_path_isdir fs dst); [discriminate|].
  destruct (parent_exists fs dst); [|discriminate].
  intros [= <-]. unfold os_path_exists. rewrite lookup_insert.
  destruct (decide (dst = k)); auto.
Qed.

Lemma copyfile_isdir (fs fs' : FS) (src dst k : string) :
  shutil_copyfile fs src dst = Some fs' ->
  os_path_isdir fs k = true -> os_path_isdir fs' k = true.
Proof.
  unfold shutil_copyfile, os_path_isdir.
  destruct (fs !! src) as [[data|]|]; try discriminate.
  destruct (String.eqb src dst); [discriminate|].
  destruct (fs !! dst) as [[d|]|] eqn:Ed; try discriminate.
  - destruct (parent_exists fs dst); [|discriminate]. intros [= <-].
    rewrite lookup_insert. destruct (decide (dst = k)) as [<-|]; [|auto].
    rewrite Ed. discriminate.
  - destruct (parent_exists fs dst); [|discriminate]. intros [= <-].
    rewrite lookup_insert. destruct (decide (dst = k)) as [<-|]; [|auto].
    rewrite Ed. discriminate.
Qed.

(** The disk handed to the first command: the target is a directory
    and the start sentinel is in it. *)
Lemma provision_prefix_ready (fs fs1 fs2 fs3 : FS) (p f t : string) :
  os_makedirs fs p = Some fs1 ->
  path_touch fs1 (posixpath.join p "env_setup_start") = Some fs2 ->
  shutil_copyfile fs2 f t = Some fs3 ->
  os_path_isdir fs3 p = true
  /\ os_path_exists fs3 (posixpath.join p "env_setup_start") = true.
Proof.
  intros H1 H2 H3. split.
  - apply (copyfile_isdir _ _ _ _ _ H3). unfold os_path_isdir.
    rewrite (touch_keeps _ _ _ _ _ H2 (makedirs_there _ _ _ H1)).
    reflexivity.
  - apply (copyfile_exists _ _ _ _ _ H3), (touch_there _ _ _ H2).
Qed.

(** What is not a regular file does not become one, except by a touch
    or a copy at that very name. *)
Lemma isfile_insert (fs : FS) (k q : string) (x : node) :
  q <> k -> os_path_isfile (<[q := x]> fs) k = os_path_isfile fs k.
Proof.
  intros H. unfold os_path_isfile. rewrite lookup_insert_ne by exact H.
  reflexivity.
Qed.

Lemma isfile_delete (fs : FS) (k q : string) :
  os_path_isfile (delete q fs) k = true -> os_path_isfile fs k = true.
Proof.
  unfold os_path_isfile. rewrite lookup_delete.
  destruct (decide (q = k)); [discriminate | auto].
Qed.

Lemma isfile_mkdir (fs fs' : FS) (p k : string) :
  mkdir_exist_ok fs p = Some fs' ->
  os_path_isfile fs' k = true -> os_path_isfile fs k = true.
Proof.
  unfold mkdir_exist_ok. destruct (fs !! p) as [[d|]|] eqn:E; try discriminate.
  - intros [= <-]. auto.
  - destruct (parent_exists fs p); [|discriminate]. intros [= <-].
    unfold os_path_isfile. rewrite lookup_insert.
    destruct (decide (p = k)); [discriminate | auto].
Qed.

Lemma isfile_makedirs_fuel (n : nat) (fs fs' : FS) (p k : string) :
  makedirs_fuel n fs p = Some fs' ->
  os_path_isfile fs' k = true -> os_path_isfile fs k = true.
Proof.
  revert fs fs' p. induction n as [|n IH]; intros fs fs' p;
    cbn [makedirs_fuel].
  - destruct (_ || _); [apply isfile_mkdir | discriminate].
  - destruct (_ || _); [apply isfile_mkdir|].
    destruct (makedirs_fuel n fs _) as [fs1|] eqn:E; [|discriminate].
    intros H Hk. eapply IH; [exact E|]. eapply isfile_mkdir; eauto.
Qed.

Lemma isfile_makedirs (fs fs' : FS) (p k : string) :
  os_makedirs fs p = Some fs' ->
  os_path_isfile fs' k = true -> os_path_isfile fs k = true.
Proof. apply isfile_makedirs_fuel. Qed.

Lemma isfile_touch (fs fs' : FS) (q k : string) :
  path_touch fs q = Some fs' -> q <> k ->
  os_path_isfile fs' k = true -> os_path_isfile fs k = true.
Proof.
  unfold path_touch. destruct (parent_exists fs q); [|discriminate].
  destruct (fs !! q) as [y|]; intros [= <-] Hq; [auto|].
  rewrite isfile_insert by exact Hq. auto.
Qed.

Lemma isfile_copyfile (fs fs' : FS) (src dst k : string) :
  shutil_copyfile fs src dst = Some fs' -> dst <> k ->
  os_path_isfile fs' k = true -> os_path_isfile fs k = true.
Proof.
  intros H Hk. unfold os_path_isfile.
  rewrite (copyfile_keeps _ _ _ _ k H) by congruence. auto.
Qed.

Lemma isfile_rmtree (und : string -> bool) (fs : FS) (p k : string) :
  os_path_isfile (shutil_rmtree und fs p) k = true ->
  os_path_isfile fs k = true.
Proof.
  unfold os_path_isfile.
  destruct (shutil_rmtree und fs p !! k) as [[d|]|] eqn:E; try discriminate.
  rewrite (rmtree_sub _ _ _ _ _ E). auto.
Qed.

Lemma EvShell_inj (a a' : string) (b b' : bool) (c c' : string) :
  EvShell a b c = EvShell a' b' c' -> a = a' /\ b = b' /\ c = c'.
Proof. intros [= -> -> ->]. auto. Qed.

Lemma EvTouch_inj (a a' : string) : EvTouch a = EvTouch a' -> a = a'.
Proof. intros [= ->]. reflexivity. Qed.

Lemma cmds_differ (p t : string) : activate_cmd p <> create_cmd p t.
Proof. discriminate. Qed.

Lemma sentinels_differ (p : string) :
  posixpath.join p "env_setup_start" <> posixpath.join p "env_setup_done".
Proof.
  destruct (sentinel_last p) as [Hs Hd].
  eapply ne_by_last; [exact Hs | exact Hd | discriminate].
Qed.

Lemma spec_copy_not_done (p : string) :
  posixpath.join p "spack.yaml" <> posixpath.join p "env_setup_done".
Proof.
  destruct (sentinel_last p) as [_ Hd].
  assert (Ht : last_char (posixpath.join p "spack.yaml") = Some "l"%char).
  { rewrite last_char_join; [reflexivity | discriminate]. }
  eapply ne_by_last; [exact Ht | exact Hd | discriminate].
Qed.

Lemma removed_name_last (t : option string) :
  (forall k, t = Some k -> last_char k = Some "l"%char) ->
  truthy t = true -> last_char (default "" t) = Some "l"%char.
Proof.
  intros H Ht. destruct t as [k|]; [|cbn in Ht; discriminate Ht]. cbn. auto.
Qed.

Lemma tmp_not_done (k p : string) :
  last_char k = Some "l"%char -> k <> posixpath.join p "env_setup_done".
Proof.
  intros Hk. destruct (sentinel_last p) as [_ Hd].
  eapply ne_by_last; [exact Hk | exact Hd | discriminate].
Qed.

Ltac order_case :=
  let pre := fresh "pre" in
  let post := fresh "post" in
  intros pre post; intros;
  repeat (destruct pre as [|? pre];
          [ try (simplify_eq/=; first
                   [ solve [auto 12]
                   | solve [left; auto]
                   | solve [right; split; [reflexivity|];
                            eexists _, _; split; auto 12] ])
          | simplify_eq/= ]).

Ltac isfile_back Hf Hfr :=
  repeat first
    [ apply isfile_rmtree in Hf
    | apply isfile_delete in Hf
    | apply Hfr in Hf
    | match goal with
      | H : shutil_copyfile ?a _ _ = Some ?b |- _ =>
          match type of Hf with
          | os_path_isfile b _ = true =>
              apply (isfile_copyfile _ _ _ _ _ H (spec_copy_not_done _)) in Hf
          end
      | H : path_touch ?a _ = Some ?b |- _ =>
          match type of Hf with
          | os_path_isfile b _ = true =>
              apply (isfile_touch _ _ _ _ H (sentinels_differ _)) in Hf
          end
      | H : os_makedirs ?a _ = Some ?b |- _ =>
          match type of Hf with
          | os_path_isfile b _ = true => apply (isfile_makedirs _ _ _ _ H) in Hf
          end
      end ].

Ltac sentinel_case tacC tacD :=
  split; [let q := fresh "q" in let Hq := fresh "Hq" in
          intros q Hq; first [discriminate Hq | congruence]|];
  split; [order_case|];
  split; [order_case|];
  split;
  [ let ok := fresh "ok" in let out := fresh "out" in
    let Hin := fresh "Hin" in let Hc := fresh "Hc" in
    intros ok out Hin; cbn [In] in Hin;
    repeat (destruct Hin as [Hin|Hin];
            [ first [ discriminate Hin
                    | apply EvShell_inj in Hin as (Hc & <- & <-);
                      first [ exfalso; exact (cmds_differ _ _ Hc) | tacC ] ]
            | ]);
    contradiction
  | ];
  split;
  [ let Hin := fresh "Hin" in
    intros Hin; cbn [In] in Hin;
    repeat (destruct Hin as [Hin|Hin];
            [ first [ discriminate Hin
                    | exfalso; apply EvTouch_inj in Hin;
                      exact (sentinels_differ _ Hin)
                    | tacD ]
            | ]);
    contradiction
  | ];
  let H0 := fresh "H0" in let Hfr := fresh "Hfr" in let Hf := fresh "Hf" in
  intros H0 Hfr Hf;
  first [ solve [eexists _, _; split; cbn [In]; auto 12]
        | exfalso; isfile_back Hf Hfr; congruence ].

Section Sentinels.

Context `{P : Platform}.

Lemma create_at_sentinels (dryrun : bool) (f : string) (t : option string)
    (s : State) :
  (forall k, t = Some k -> last_char k = Some "l"%char) ->
  exists p : string,
    let start := posixpath.join p "env_setup_start" in
    let done := posixpath.join p "env_setup_done" in
    let c1 := create_cmd p (posixpath.join p "spack.yaml") in
    let c2 := activate_cmd p in
    let r := create_at dryrun f t s in
    (forall q, res r = Return q -> q = p)
    /\ (forall pre post cmd ok out,
          evs r = pre ++ EvShell cmd ok out :: post ->
          In (EvTouch start) pre)
    /\ (forall pre post q,
          evs r = pre ++ EvTouch q :: post ->
          (q = start /\ shell_cmds pre = [])
          \/ (q = done
              /\ exists o1 o2,
                  In (EvShell c1 true o1) pre /\ In (EvShell c2 true o2) pre))
    /\ (forall ok out,
          In (EvShell c1 ok out) (evs r) ->
          exists fs,
            os_path_isdir fs p = true /\ os_path_exists fs start = true
            /\ exit_ok (shell_check_output c1 fs) = ok
            /\ output (shell_check_output c1 fs) = out)
    /\ (In (EvTouch done) (evs r) ->
        os_path_exists (disk (st r)) done = true)
    /\ (os_path_isfile (disk s) done = false ->
        (forall cmd fs,
           os_path_isfile (disk_after (shell_check_output cmd fs)) done = true ->
           os_path_isfile fs done = true) ->
        os_path_isfile (disk (st r)) done = true ->
        exists o1 o2,
          In (EvShell c1 true o1) (evs r) /\ In (EvShell c2 true o2) (evs r)).
Proof.
  intros Ht.
  destruct (res (path s)) as [p|x] eqn:Hp.
  2:{ exists "". destruct (create_at_raises dryrun f t s x Hp) as (s' & Hr & Hd).
      rewrite Hr. cbv zeta. cbn [res st evs]. rewrite Hd.
      sentinel_case idtac idtac. }
  exists p. cbv zeta.
  rewrite (create_at_run dryrun f t s p Hp), hash_pure. cbn [st].
  set (e4 := (hash_of (self s)).2).
  destruct (is_broken (disk s) p); [cbn [res st evs disk]; sentinel_case idtac idtac|].
  destruct (os_path_exists (disk s) p) eqn:Hex.
  - rewrite finish_run. destruct (truthy t) eqn:Htr;
      [|cbn [res st evs disk]; sentinel_case idtac idtac].
    cbn [self disk].
    destruct (os_remove (disk s) (default "" t)) as [fs'|] eqn:Hrm;
      [|cbn [res st evs disk]; sentinel_case idtac idtac].
    apply os_remove_delete in Hrm. subst fs'.
    cbn [res st evs disk]. sentinel_case idtac idtac.
  - cbn [negb]. destruct dryrun;
      [cbn [res st evs disk]; sentinel_case idtac idtac|].
    rewrite provision_run. cbv zeta. cbn [self disk].
    destruct (os_makedirs (disk s) p) as [fs1|] eqn:Hmk;
      [|cbn [res st evs disk]; sentinel_case idtac idtac].
    destruct (path_touch fs1 _) as [fs2|] eqn:Hts;
      [|cbn [res st evs disk]; sentinel_case idtac idtac].
    destruct (shutil_copyfile fs2 f _) as [fs3|] eqn:Hcp;
      [|cbn [res st evs disk]; sentinel_case idtac idtac].
    pose proof (provision_prefix_ready _ _ _ _ _ _ _ Hmk Hts Hcp)
      as [Hdir3 Hst3].
    destruct (exit_ok (shell_check_output _ fs3)) eqn:Hx1.
    + destruct (exit_ok (shell_check_output _ (disk_after _))) eqn:Hx2.
      * destruct (path_touch (disk_after _) _) as [fs6|] eqn:Htd.
        -- pose proof (touch_there _ _ _ Htd) as Hd6.
           rewrite finish_run. destruct (truthy t) eqn:Htr.
           ++ cbn [self disk].
              destruct (os_remove fs6 (default "" t)) as [fs'|] eqn:Hrm.
              ** apply os_remove_delete in Hrm. subst fs'.
                 cbn [res st evs disk app].
                 sentinel_case
                   ltac:(exists fs3; rewrite ?Hx1; auto)
                   ltac:(rewrite <- (exists_agree (default "" t) _ fs6);
                         [exact Hd6 | apply agree_off_delete
                         | apply not_eq_sym, tmp_not_done,
                             removed_name_last; assumption]).
              ** cbn [res st evs disk app].
                 sentinel_case
                   ltac:(exists fs3; rewrite ?Hx1; auto)
                   ltac:(exact Hd6).
           ++ cbn [res st evs disk app].
              sentinel_case
                ltac:(exists fs3; rewrite ?Hx1; auto)
                ltac:(exact Hd6).
        -- cbn [res st evs disk app].
           sentinel_case ltac:(exists fs3; rewrite ?Hx1; auto) idtac.
      * cbn [res st evs disk app].
        sentinel_case ltac:(exists fs3; rewrite ?Hx1; auto) idtac.
    + cbn [res st evs disk app].
      sentinel_case ltac:(exists fs3; rewrite ?Hx1; auto) idtac.
Qed.

End Sentinels.

Section Bracket.

Context `{P : Platform}.

(** C5.  In every run of [create], with [p] the target directory: a
    command is handed to the shell only after the start sentinel of
    [p] has been touched; the only files touched are the two
    sentinels of [p]; the start sentinel is touched before any
    command; and the done sentinel is touched only after both the
    creation and the install command have succeeded.  A path that
    [create] returns is [p].  On disk: the creation command runs on a
    disk on which [p] is a directory and holds the start sentinel;
    once the done sentinel has been touched it is there when the run
    ends; and if it was no file before and the tool does not write it
    itself, it is a file after the run only if both commands have
    succeeded. *)
Theorem sentinels_bracket_the_tool (dryrun : bool) (s : State) :
  exists p : string,
    let start := posixpath.join p "env_setup_start" in
    let done := posixpath.join p "env_setup_done" in
    let c1 := create_cmd p (posixpath.join p "spack.yaml") in
    let c2 := activate_cmd p in
    let r := create dryrun s in
    (forall q, res r = Return q -> q = p)
    /\ (forall pre post cmd ok out,
          evs r = pre ++ EvShell cmd ok out :: post ->
          In (EvTouch start) pre)
    /\ (forall pre post q,
          evs r = pre ++ EvTouch q :: post ->
          (q = start /\ shell_cmds pre = [])
          \/ (q = done
              /\ exists o1 o2,
                  In (EvShell c1 true o1) pre /\ In (EvShell c2 true o2) pre))
    /\ (forall ok out,
          In (EvShell c1 ok out) (evs r) ->
          exists fs,
            os_path_isdir fs p = true /\ os_path_exists fs start = true
            /\ exit_ok (shell_check_output c1 fs) = ok
            /\ output (shell_check_output c1 fs) = out)
    /\ (In (EvTouch done) (evs r) ->
        os_path_exists (disk (st r)) done = true)
    /\ (os_path_isfile (disk s) done = false ->
        (forall cmd fs,
           os_path_isfile (disk_after (shell_check_output cmd fs)) done = true ->
           os_path_isfile fs done = true) ->
        os_path_isfile (disk (st r)) done = true ->
        exists o1 o2,
          In (EvShell c1 true o1) (evs r) /\ In (EvShell c2 true o2) (evs r)).
Proof.
  rewrite create_unfold. destruct (nonlocal (file (self s))) eqn:Hnl.
  - destruct (res (content s)) as [c|x] eqn:Hc.
    + rewrite (materialize_nonlocal s c Hnl Hc). cbn [fst snd].
      set (t := tmp_name s).
      set (s2 := {| self := (content_of (self s)).2;
                    disk := <[t := File c]> (disk s) |}).
      assert (Ht : forall k, Some t = Some k -> last_char k = Some "l"%char).
      { intros k [= <-]. apply tmp_name_last. }
      destruct (create_at_sentinels dryrun t (Some t) s2 Ht) as (p & H).
      exists p. cbv zeta in H |- *. revert H.
      destruct (create_at dryrun t (Some t) s2) as [r s' ev].
      cbn [res st evs app].
      intros (Hres & HA & HB & HC & HD & HE).
      split; [exact Hres|]. split.
      { intros pre post cmd ok out Hev.
        destruct pre as [|a [|b pre]]; simplify_eq/=.
        right. right. eapply HA. reflexivity. }
      split.
      { intros pre post q Hev.
        destruct pre as [|a [|b pre]]; simplify_eq/=.
        destruct (HB pre post q eq_refl) as [[-> Hs] | (-> & o1 & o2 & H1 & H2)].
        - left. auto.
        - right. split; [reflexivity|]. exists o1, o2. auto. }
      split.
      { intros ok out [Hin|[Hin|Hin]]; try discriminate Hin.
        apply HC, Hin. }
      split.
      { intros [Hin|[Hin|Hin]]; try discriminate Hin. apply HD, Hin. }
      intros H0 Hfr Hf.
      destruct (HE) as (o1 & o2 & H1 & H2); [|exact Hfr|exact Hf|].
      { cbn [disk s2]. rewrite isfile_insert; [exact H0|].
        apply tmp_not_done, tmp_name_last. }
      exists o1, o2. cbn [In]. auto.
    + rewrite (materialize_fails s x Hnl Hc). exists "". cbv zeta.
      cbn [res st evs disk].
      split; [discriminate|]. split; [order_case|]. split; [order_case|].
      split; [intros ok out [Hin|[]]; discriminate Hin|].
      split; [intros [Hin|[]]; discriminate Hin|].
      intros H0 _ Hf. rewrite isfile_insert in Hf; [congruence|].
      apply tmp_not_done, tmp_name_last.
  - rewrite (materialize_local s Hnl). cbn [fst snd].
    destruct (create_at_sentinels dryrun (get_path_or_uri (file (self s)))
                None s) as (p & H); [discriminate|].
    exists p. cbv zeta in H |- *. revert H.
    destruct (create_at dryrun _ None s) as [r s' ev].
    cbn [res st evs app]. auto.
Qed.

End Bracket.

Section DryRun.

Context `{P : Platform}.

Lemma create_at_announce (f : string) (t : option string) (s : State)
    (p : string) :
  res (path s) = Return p ->
  os_path_exists (disk s) p = false -> is_broken (disk s) p = false ->
  create_at true f t s =
    Outcome (Return p) {| self := (hash_of (self s)).2; disk := disk s |} [].
Proof.
  intros Hp Hex Hbr.
  rewrite (create_at_run true f t s p Hp), Hbr, Hex, hash_pure.
  reflexivity.
Qed.

(** C6, as the code has it.  A dry run on a target that is not there
    returns the path [create] would make.  For a plain local source it
    does nothing else: no event, the disk as it was.  For any other
    source it creates the temporary file, writes the content to it
    and leaves it there: the disk afterwards is the disk before with
    the temporary file added. *)
Theorem dry_run_leaves_temporary_file (s : State) (p : string) :
  caches_ok (self s) -> res (path s) = Return p ->
  os_path_exists (disk s) p = false -> is_broken (disk s) p = false ->
  res (create true s) = Return p
  /\ (nonlocal (file (self s)) = false ->
        evs (create true s) = [] /\ disk (st (create true s)) = disk s)
  /\ (nonlocal (file (self s)) = true ->
        exists c,
          res (content s) = Return c
          /\ evs (create true s)
             = [EvTempfile (tmp_name s); EvWrite (tmp_name s) c]
          /\ disk (st (create true s))
             = <[tmp_name s := File c]> (disk s)
          /\ disk (st (create true s)) !! tmp_name s = Some (File c)).
Proof.
  intros Hok Hp Hex Hbr.
  destruct (nonlocal (file (self s))) eqn:Hnl.
  - destruct (path_resolved s p Hp) as (h & Hh & Hres).
    destruct (hash_of_shape (self s) h Hok Hh) as [Hx Hl].
    destruct (resolve_last (_env_dir (self s)) h (disk s) Hx Hl)
      as (ch & Hlast & Hhex).
    rewrite <- Hres in Hlast.
    assert (Hne : p <> tmp_name s).
    { eapply hex_ne_tmp; eauto using tmp_name_last. }
    destruct (hash_of_content (self s) h Hok Hh) as [c Hc].
    assert (Hc' : res (content s) = Return c).
    { rewrite content_pure. exact Hc. }
    rewrite create_unfold, (materialize_nonlocal s c Hnl Hc'). cbn [fst snd].
    set (s2 := {| self := (content_of (self s)).2;
                  disk := <[tmp_name s := File c]> (disk s) |}).
    assert (Hag : agree_off (tmp_name s) (disk s) (disk s2))
      by apply agree_off_insert.
    assert (Hp2 : res (path s2) = Return p)
      by (apply (path_materialized s p c); assumption).
    assert (Hex2 : os_path_exists (disk s2) p = false).
    { rewrite <- (exists_agree (tmp_name s) p (disk s) (disk s2)); auto. }
    assert (Hbr2 : is_broken (disk s2) p = false).
    { rewrite <- (is_broken_agree (tmp_name s) p (disk s) (disk s2));
        auto using tmp_name_last. }
    rewrite (create_at_announce _ _ s2 p Hp2 Hex2 Hbr2).
    cbn [res st evs self disk app s2].
    split; [reflexivity|]. split; [discriminate|]. intros _.
    exists c. split; [exact Hc'|]. split; [reflexivity|].
    split; [reflexivity | apply lookup_insert_eq].
  - rewrite create_unfold, (materialize_local s Hnl). cbn [fst snd].
    rewrite (create_at_announce _ _ s p Hp Hex Hbr).
    cbn [res st evs self disk app].
    split; [reflexivity|]. split; [auto | discriminate].
Qed.

End DryRun.

(** ** The model run on the concrete platform *)

Lemma hash_is_md5_of_root_and_content_witness :
  res (@hash Demo.host_ok (Demo.start Demo.local_env Demo.disk0))
  = Return "4dd73e37401c51fcce15a4bda47a05dc".
Proof.
  destruct (@hash_is_md5_of_root_and_content Demo.host_ok
              (Demo.start Demo.local_env Demo.disk0)
              (Demo.start Demo.local_env Demo.disk0)
              Demo.spec_yaml Demo.spec_yaml
              eq_refl eq_refl eq_refl eq_refl) as [H _].
  rewrite H. vm_compute. reflexivity.
Defined.

(** Different content and different target roots, and the same hash:
    [/a] followed by [b] and [/ab] followed by nothing are the same
    bytes. *)
Lemma hash_collision_by_concatenation :
  res (@content Demo.host_ok (Demo.start Demo.env_a Demo.disk0))
  = Return (list_byte_of_string "b")
  /\ res (@content Demo.host_ok (Demo.start Demo.env_ab Demo.disk0))
     = Return []
  /\ @os_path_realpath Demo.host_ok (_env_dir Demo.env_a) = "/a"
  /\ @os_path_realpath Demo.host_ok (_env_dir Demo.env_ab) = "/ab"
  /\ res (@hash Demo.host_ok (Demo.start Demo.env_a Demo.disk0))
     = res (@hash Demo.host_ok (Demo.start Demo.env_ab Demo.disk0)).
Proof. vm_compute. repeat split; reflexivity. Qed.

Lemma path_resolution_rule_witness :
  res (@path Demo.host_ok (Demo.start Demo.local_env Demo.disk0))
  = Return Demo.target.
Proof.
  destruct (@path_resolution_rule Demo.host_ok
              (Demo.start Demo.local_env Demo.disk0)
              "4dd73e37401c51fcce15a4bda47a05dc"
              ltac:(vm_compute; reflexivity)) as [H _].
  rewrite H. vm_compute. reflexivity.
Defined.

Lemma existing_environment_is_reused_witness :
  res (@create Demo.host_ok false
         (Demo.start Demo.local_env Demo.disk_ready))
  = Return Demo.target
  /\ evs (@create Demo.host_ok false
            (Demo.start Demo.local_env Demo.disk_ready)) = [].
Proof.
  destruct (@existing_environment_is_reused Demo.host_ok
              (Demo.start Demo.local_env Demo.disk_ready) Demo.target
              (Env_init_caches_ok _ _ _ _)) as [H _].
  destruct H as (H1 & _ & _ & H4 & _); try (vm_compute; reflexivity).
  split; [exact H1 | exact (proj1 (H4 eq_refl))].
Defined.




Lemma sentinels_bracket_the_tool_witness :
  List.In (EvTouch (posixpath.join Demo.target "env_setup_done"))
    (evs (@create Demo.host_ok false (Demo.start Demo.local_env Demo.disk0)))
  /\ exists p,
       res (@create Demo.host_ok false
              (Demo.start Demo.local_env Demo.disk0)) = Return p
       /\ os_path_exists
            (disk (st (@create Demo.host_ok false
                         (Demo.start Demo.local_env Demo.disk0))))
            (posixpath.join p "env_setup_done") = true.
Proof.
  assert (Hin : List.In (EvTouch (posixpath.join Demo.target "env_setup_done"))
                  (evs (@create Demo.host_ok false
                          (Demo.start Demo.local_env Demo.disk0)))).
  { vm_compute. auto 12. }
  split; [exact Hin|].
  destruct (@sentinels_bracket_the_tool Demo.host_ok false
              (Demo.start Demo.local_env Demo.disk0))
    as (p & Hres & _ & _ & _ & HD & _).
  assert (Hp : Demo.target = p).
  { apply Hres. vm_compute. reflexivity. }
  exists p. subst p. split; [vm_compute; reflexivity|].
  apply HD, Hin.
Defined.


Lemma dry_run_leaves_temporary_file_witness :
  res (@create Demo.host_ok true (Demo.start Demo.remote_env Demo.disk0))
  = Return Demo.target
  /\ Demo.disk0 !! Demo.tmp = None
  /\ disk (st (@create Demo.host_ok true
                 (Demo.start Demo.remote_env Demo.disk0))) !! Demo.tmp
     = Some (File Demo.spec_yaml).
Proof.
  destruct (@dry_run_leaves_temporary_file Demo.host_ok
              (Demo.start Demo.remote_env Demo.disk0) Demo.target
              (Env_init_caches_ok _ _ _ _)) as (H1 & _ & H3);
    try (vm_compute; reflexivity).
  destruct (H3 eq_refl) as (c & Hc & _ & _ & Ht).
  assert (c = Demo.spec_yaml) as ->
    by (vm_compute in Hc; injection Hc as <-; reflexivity).
  split; [exact H1|]. split; [vm_compute; reflexivity | exact Ht].
Defined.

(** [create] makes no check for the tool: on a host without spack it
    makes the directory, touches the start sentinel and copies the
    specification before the first command fails, and it never runs a
    locate command. *)
Lemma create_runs_without_tool_check :
  evs (@create Demo.host_without_spack false
         (Demo.start Demo.local_env Demo.disk0))
  = [EvMakedirs Demo.target;
     EvTouch (posixpath.join Demo.target "env_setup_start");
     EvCopyfile "/work/env.yaml" (posixpath.join Demo.target "spack.yaml");
     EvShell (create_cmd Demo.target
                (posixpath.join Demo.target "spack.yaml"))
       false "spack: command not found";
     EvRmtree Demo.target]
  /\ res (@Spack_init Demo.host_without_spack
            (Demo.start Demo.local_env Demo.disk0))
     = Raise (CreateSpackEnvironmentException
                "The 'spack' command is not available in the shell bash that will be used by Snakemake. You have to ensure that it is in your PATH.").
Proof. vm_compute. split; reflexivity. Qed.

(** ** Further properties of the module *)

Lemma append_assoc (a b c : string) : (a +:+ b) +:+ c = a +:+ (b +:+ c).
Proof.
  induction a as [|x a IH]; [reflexivity|].
  change ((String x a +:+ b) +:+ c) with (String x ((a +:+ b) +:+ c)).
  rewrite IH. reflexivity.
Qed.

(** X7.  The install step of [Env.create] is the command line
    [Spack.shellcmd] builds for [spack install] in the environment. *)
Theorem install_step_is_shellcmd (env_path : string) :
  activate_cmd env_path = shellcmd env_path install_cmd.
Proof.
  unfold activate_cmd, shellcmd. rewrite !append_assoc. reflexivity.
Qed.

(** X1.  Once [hash] has returned, the value is kept in the object: a later
    call returns it as it is, on any disk and on any host, without
    resolving the target root or reading the source again, and without
    changing anything. *)
Theorem hash_is_cached (P P' : Platform) (s : State) (h : string) :
  res (@hash P s) = Return h ->
  forall d : FS,
    @hash P' {| self := self (st (@hash P s)); disk := d |}
    = Outcome (Return h) {| self := self (st (@hash P s)); disk := d |} [].
Proof.
  intros Hh d. apply hash_cached. cbn [self].
  apply (hash_returns s h Hh).
Qed.

Section Object.

Context `{P : Platform}.

Lemma path_raised (s : State) (x : exn) :
  res (path s) = Raise x ->
  path s = Outcome (Raise x) {| self := (hash_of (self s)).2; disk := disk s |} [].
Proof.
  rewrite path_pure. destruct ((hash_of (self s)).1); [discriminate|].
  cbn [res]. intros [= ->]. reflexivity.
Qed.

Lemma create_at_self (dryrun : bool) (f : string) (t : option string)
    (s : State) :
  self (st (create_at dryrun f t s)) = (hash_of (self s)).2.
Proof.
  destruct (res (path s)) as [p|x] eqn:Hp.
  - rewrite (create_at_run dryrun f t s p Hp), hash_pure. cbn [st].
    destruct (is_broken (disk s) p); [reflexivity|].
    destruct (os_path_exists (disk s) p).
    + rewrite finish_run. destruct (truthy t); [|reflexivity].
      destruct (os_remove _ _); reflexivity.
    + destruct dryrun; [reflexivity|].
      rewrite provision_run. cbv zeta. cbn [self disk].
      destruct (os_makedirs (disk s) p) as [fs1|]; [|reflexivity].
      destruct (path_touch fs1 _) as [fs2|]; [|reflexivity].
      destruct (shutil_copyfile fs2 f _) as [fs3|]; [|reflexivity].
      destruct (exit_ok (shell_check_output _ fs3)); [|reflexivity].
      destruct (exit_ok (shell_check_output _ (disk_after _)));
        [|reflexivity].
      destruct (path_touch (disk_after _) _) as [fs6|]; [|reflexivity].
      rewrite finish_run. destruct (truthy t); [|reflexivity].
      destruct (os_remove _ _); reflexivity.
  - unfold create_at. unfold_M. rewrite (path_raised s x Hp). reflexivity.
Qed.

Lemma create_self (dryrun : bool) (s : State) :
  self (st (create dryrun s)) = self s
  \/ self (st (create dryrun s)) = (hash_of (self s)).2
  \/ self (st (create dryrun s)) = (hash_of (content_of (self s)).2).2.
Proof.
  rewrite create_unfold. destruct (nonlocal (file (self s))) eqn:Hnl.
  - destruct (res (content s)) as [c|x] eqn:Hc.
    + rewrite (materialize_nonlocal s c Hnl Hc). cbn [fst snd].
      pose proof (create_at_self dryrun (tmp_name s) (Some (tmp_name s))
                    {| self := (content_of (self s)).2;
                       disk := <[tmp_name s := File c]> (disk s) |}) as H.
      destruct (create_at _ _ _ _) as [r s' ev]. cbn [st self] in *. auto.
    + rewrite (materialize_fails s x Hnl Hc). auto.
  - rewrite (materialize_local s Hnl). cbn [fst snd].
    pose proof (create_at_self dryrun (get_path_or_uri (file (self s)))
                  None s) as H.
    destruct (create_at _ _ _ _) as [r s' ev]. cbn [st self] in *. auto.
Qed.

(** X2.  [create] never changes what the object stands for: the source file
    and the target root stay, in every run, whatever its outcome; and
    it keeps the caches in order, so a cached hash is always the digest
    of the root and the cached content. *)
Theorem create_keeps_the_object (dryrun : bool) (s : State) :
  file (self (st (create dryrun s))) = file (self s)
  /\ _env_dir (self (st (create dryrun s))) = _env_dir (self s)
  /\ (caches_ok (self s) -> caches_ok (self (st (create dryrun s)))).
Proof.
  destruct (content_of_fields (self s)) as (Hf1 & Hd1 & _).
  destruct (hash_of_fields (self s)) as (Hf2 & Hd2).
  destruct (hash_of_fields (content_of (self s)).2) as (Hf3 & Hd3).
  destruct (create_self dryrun s) as [-> | [-> | ->]].
  - auto.
  - split; [exact Hf2|]. split; [exact Hd2|]. apply hash_of_caches_ok.
  - split; [congruence|]. split; [congruence|]. intros Hok.
    apply hash_of_caches_ok, content_of_caches_ok, Hok.
Qed.


Lemma create_at_dry (f : string) (t : option string) (s : State) :
  (evs (create_at true f t s) = []
   /\ disk (st (create_at true f t s)) = disk s)
  \/ (exists k, t = Some k
        /\ evs (create_at true f t s) = [EvRemove k]
        /\ disk (st (create_at true f t s)) = delete k (disk s)).
Proof.
  destruct (res (path s)) as [p|x] eqn:Hp.
  - rewrite (create_at_run true f t s p Hp), hash_pure. cbn [st].
    destruct (is_broken (disk s) p); [auto|].
    destruct (os_path_exists (disk s) p); [|auto].
    rewrite finish_run. destruct (truthy t) eqn:Ht; [|auto].
    destruct t as [k|]; [|cbn in Ht; discriminate Ht].
    cbn [default from_option id self disk].
    destruct (os_remove (disk s) k) as [fs'|] eqn:Hrm; [|auto].
    right. exists k. cbn [evs st disk].
    rewrite (os_remove_delete _ _ _ Hrm). auto.
  - unfold create_at. unfold_M. rewrite (path_raised s x Hp). auto.
Qed.

(** X4.  A dry run hands nothing to the shell and makes no directory and
    no sentinel: all it can do is to create, write and remove the
    temporary file of a source that is not a plain local file.  For a
    plain local source it does nothing at all: no event, and the disk
    as it was, whatever the outcome. *)
Theorem dry_run_makes_nothing (s : State) :
  (forall ev, In ev (evs (create true s)) ->
     ev = EvTempfile (tmp_name s)
     \/ (exists c, ev = EvWrite (tmp_name s) c)
     \/ ev = EvRemove (tmp_name s))
  /\ agree_off (tmp_name s) (disk s) (disk (st (create true s)))
  /\ (nonlocal (file (self s)) = false ->
        evs (create true s) = [] /\ disk (st (create true s)) = disk s).
Proof.
  rewrite create_unfold. destruct (nonlocal (file (self s))) eqn:Hnl.
  - destruct (res (content s)) as [c|x] eqn:Hc.
    + rewrite (materialize_nonlocal s c Hnl Hc). cbn [fst snd].
      pose proof (create_at_dry (tmp_name s) (Some (tmp_name s))
                    {| self := (content_of (self s)).2;
                       disk := <[tmp_name s := File c]> (disk s) |}) as H.
      destruct (create_at _ _ _ _) as [r s' ev]. cbn [st evs disk] in *.
      split; [|split; [|discriminate]].
      * destruct H as [[-> _] | (k & [= <-] & -> & _)]; cbn [app In];
          intros ev' Hin; intuition eauto.
      * destruct H as [[_ ->] | (k & [= <-] & _ & ->)].
        -- apply agree_off_insert.
        -- eapply agree_off_trans;
             [apply agree_off_insert | apply agree_off_delete].
    + rewrite (materialize_fails s x Hnl Hc). cbn [evs st disk].
      split; [|split; [apply agree_off_insert | discriminate]].
      intros ev' [<- | []]. auto.
  - rewrite (materialize_local s Hnl). cbn [fst snd].
    pose proof (create_at_dry (get_path_or_uri (file (self s))) None s) as H.
    destruct (create_at _ _ _ _) as [r s' ev]. cbn [st evs disk app] in *.
    destruct H as [[-> ->] | (k & [=] & _)].
    split; [intros ev' []|]. split; [apply agree_off_refl | auto].
Qed.

(** X5.  [create] deletes nothing but the two things it made.  A recursive
    removal happens only in a real run, directly after a command that
    failed, as the last thing before
    [CreateSpackEnvironmentException] is raised; any other failure (an
    [OSError] of a file operation, a broken or unreadable environment)
    removes nothing.  A single file is removed only if it is the
    temporary file of a source that is not a plain local file. *)
Theorem create_removes_only_its_own (dryrun : bool) (s : State) :
  (forall q, In (EvRmtree q) (evs (create dryrun s)) ->
     dryrun = false
     /\ (exists msg,
           res (create dryrun s) = Raise (CreateSpackEnvironmentException msg))
     /\ exists pre cmd out,
          evs (create dryrun s) = pre ++ [EvShell cmd false out; EvRmtree q]
          /\ In (EvMakedirs q) pre)
  /\ (forall k, In (EvRemove k) (evs (create dryrun s)) ->
        nonlocal (file (self s)) = true /\ k = tmp_name s).
Proof.
  create_cases dryrun s.
  all: split; [intros q H | intros k H].
  all: match type of H with
       | In _ ?l =>
           first [ let r := all_but_last2 l in pose (pre0 := r)
                 | pose (pre0 := @nil event) ]
       end.
  all: cbn [In] in H.
  all: repeat (destruct H as [H|H]; [try discriminate H|]);
    try contradiction.
  all: try (injection H as <-).
  all: try (split; [reflexivity|]; split; [eexists; reflexivity|];
            eexists pre0, _, _; subst pre0;
            split; [reflexivity | cbn [In]; auto 12]).
  all: try (split; [reflexivity|]).
  all: try (cbn in Ht; congruence).
  all: try reflexivity.
Qed.

(** X6.  The tool is run at most twice in a call of [create], and never in
    a dry run: first the command that creates the environment in the
    target directory from the copied specification, then the command
    that activates it and installs; the second is run only after the
    first has succeeded. *)
Theorem tool_invocations (dryrun : bool) (s : State) :
  exists p : string,
    let c1 := create_cmd p (posixpath.join p "spack.yaml") in
    let c2 := activate_cmd p in
    (shell_cmds (evs (create dryrun s)) = []
     \/ (exists out, In (EvShell c1 false out) (evs (create dryrun s))
                     /\ shell_cmds (evs (create dryrun s)) = [c1])
     \/ (exists out, In (EvShell c1 true out) (evs (create dryrun s))
                     /\ shell_cmds (evs (create dryrun s)) = [c1; c2]))
    /\ (dryrun = true -> shell_cmds (evs (create dryrun s)) = []).
Proof.
  create_cases dryrun s.
  all: first [ match goal with
               | Hp : res (path _) = Return ?p |- _ => exists p
               end
             | exists "" ].
  all: cbv zeta; cbn [shell_cmds In].
  all: split; [|first [reflexivity | discriminate]].
  all: first [ left; reflexivity
             | right; left; eexists; split; [auto 12 | reflexivity]
             | right; right; eexists; split; [auto 12 | reflexivity] ].
Qed.

End Object.

(** ** A first provisioning that goes through *)










Section FirstRun.

Context `{P : Platform}.


End FirstRun.

Lemma hash_is_cached_witness :
  res (@hash Demo.host_without_spack
         {| self := self (st (@hash Demo.host_ok
                                (Demo.start Demo.local_env Demo.disk0)));
            disk := ∅ |})
  = Return "4dd73e37401c51fcce15a4bda47a05dc".
Proof.
  rewrite (hash_is_cached Demo.host_ok Demo.host_without_spack
             (Demo.start Demo.local_env Demo.disk0)
             "4dd73e37401c51fcce15a4bda47a05dc"
             ltac:(vm_compute; reflexivity) ∅).
  reflexivity.
Defined.


